(** * File-serving access control of the dev server

    A shallow embedding of
    [packages/vite/src/node/server/middlewares/static.ts]: the access
    policy engine ([isFileLoadingAllowed], [checkLoadingAccess],
    [isFileServingAllowed]), the denial response
    ([respondWithAccessDenied], [renderRestrictedErrorHTML]) and the three
    serving stages ([servePublicMiddleware], [serveStaticMiddleware],
    [serveRawFsMiddleware]).

    JavaScript strings are represented by [string]: a sequence of bytes,
    a character outside ASCII standing as its UTF-8 bytes.  A [throw] is
    the [Throw] case of [completion]. *)

From Stdlib Require Import ZArith Ascii String List Bool Lia.
From stdpp Require Import base decidable strings gmap.

Import ListNotations.
Local Open Scope string_scope.
Local Open Scope Z_scope.

(* ================================================================== *)
(** ** Completions: a normal value or a thrown error object            *)
(* ================================================================== *)

(** The error objects this code creates, catches and inspects: the
    property bag of an [Error] with its optional [code] and [path]. *)
Record JsError := mkError {
  err_name : string;
  err_message : string;
  err_code : option string;
  err_path : option string
}.

Inductive completion (A : Type) : Type :=
| Normal (a : A)
| Throw (e : JsError).
Arguments Normal {A} a.
Arguments Throw {A} e.

Definition bind {A B} (c : completion A) (k : A -> completion B) : completion B :=
  match c with
  | Normal a => k a
  | Throw e => Throw e
  end.

Notation "'let*' x ':=' c 'in' k" := (bind c (fun x => k))
  (at level 10, x name, c at level 100, k at level 200).

(** [try { c } catch { h }] with a handler that ignores the error. *)
Definition try_or {A} (c : completion A) (h : A) : A :=
  match c with
  | Normal a => a
  | Throw _ => h
  end.

Definition URIError : JsError :=
  mkError "URIError" "URI malformed" None None.

(* ================================================================== *)
(** ** String methods of the language                                  *)
(* ================================================================== *)

Module Js.

Definition code (c : ascii) : Z := Z.of_N (N_of_ascii c).
Definition chr (n : Z) : ascii := ascii_of_N (Z.to_N n).

Definition dquote : ascii := "034"%char.
Definition newline : ascii := "010"%char.
Definition str (c : ascii) : string := String c EmptyString.

(** [s.startsWith(p)] *)
Fixpoint startsWith (s p : string) {struct p} : bool :=
  match p with
  | EmptyString => true
  | String a p' =>
      match s with
      | EmptyString => false
      | String b s' => Ascii.eqb a b && startsWith s' p'
      end
  end.

(** [s.slice(n)] for [0 <= n] *)
Fixpoint slice (s : string) (n : nat) {struct n} : string :=
  match n, s with
  | O, _ => s
  | S n', String _ r => slice r n'
  | S _, EmptyString => EmptyString
  end.

(** [s.endsWith(p)] *)
Definition endsWith (s p : string) : bool :=
  (String.length p <=? String.length s)%nat &&
  String.eqb (slice s (String.length s - String.length p)) p.

(** [s[s.length - 1]], [None] for [undefined] *)
Fixpoint lastChar (s : string) : option ascii :=
  match s with
  | EmptyString => None
  | String c EmptyString => Some c
  | String _ r => lastChar r
  end.

(** [s.indexOf(c) !== -1] for a one-character [c] *)
Fixpoint includesChar (s : string) (c : ascii) : bool :=
  match s with
  | EmptyString => false
  | String d r => Ascii.eqb d c || includesChar r c
  end.

(** A string is truthy when it is not empty. *)
Definition truthy (s : string) : bool :=
  match s with EmptyString => false | _ => true end.

(** [GetSubstitution] for a string pattern (no captures): [$$], [$&],
    [$`] and [$'] are substituted, every other [$] stays as it is. *)
Fixpoint getSubstitution (matched before after : string) (repl : string) : string :=
  match repl with
  | EmptyString => EmptyString
  | String c r =>
      if Ascii.eqb c "$" then
        match r with
        | String d r' =>
            if Ascii.eqb d "$" then String "$" (getSubstitution matched before after r')
            else if Ascii.eqb d "&" then matched ++ getSubstitution matched before after r'
            else if Ascii.eqb d "`" then before ++ getSubstitution matched before after r'
            else if Ascii.eqb d "'" then after ++ getSubstitution matched before after r'
            else String c (getSubstitution matched before after r)
        | EmptyString => String c EmptyString
        end
      else String c (getSubstitution matched before after r)
  end.

(** Split at the first occurrence of [pat]: what is before and after it. *)
Fixpoint splitAt (s pat : string) : option (string * string) :=
  if startsWith s pat then Some (EmptyString, slice s (String.length pat))
  else
    match s with
    | EmptyString => None
    | String c r =>
        match splitAt r pat with
        | Some (b, a) => Some (String c b, a)
        | None => None
        end
    end.

(** [s.replace(pat, repl)] for a string [pat]: the first occurrence only. *)
Definition replace (s pat repl : string) : string :=
  match splitAt s pat with
  | None => s
  | Some (before, after) => before ++ getSubstitution pat before after repl ++ after
  end.

(** [s.replace(/\n/g, r)]: every occurrence of the one character. *)
Fixpoint replaceAllChar (s : string) (c : ascii) (r : string) : string :=
  match s with
  | EmptyString => EmptyString
  | String d s' =>
      (if Ascii.eqb d c then r else str d) ++ replaceAllChar s' c r
  end.

(** [l.join(sep)] *)
Fixpoint join (sep : string) (l : list string) : string :=
  match l with
  | [] => EmptyString
  | [x] => x
  | x :: r => x ++ sep ++ join sep r
  end.

Definition lowerChar (c : ascii) : ascii :=
  let n := code c in if (65 <=? n) && (n <=? 90) then chr (n + 32) else c.

(** [s.toLowerCase()], on the ASCII letters *)
Fixpoint toLowerCase (s : string) : string :=
  match s with
  | EmptyString => EmptyString
  | String c r => String (lowerChar c) (toLowerCase r)
  end.

Definition isAlpha (c : ascii) : bool :=
  let n := code c in ((65 <=? n) && (n <=? 90)) || ((97 <=? n) && (n <=? 122)).

Definition isDigit (c : ascii) : bool :=
  let n := code c in (48 <=? n) && (n <=? 57).

(* ---------------------------------------------------------------- *)
(** *** [decodeURI] and [encodeURI] (ECMA-262, Decode and Encode)    *)
(* ---------------------------------------------------------------- *)

Definition hexVal (c : ascii) : option Z :=
  let n := code c in
  if isDigit c then Some (n - 48)
  else if (65 <=? n) && (n <=? 70) then Some (n - 55)
  else if (97 <=? n) && (n <=? 102) then Some (n - 87)
  else None.

Definition hexOctet (h1 h2 : ascii) : option Z :=
  match hexVal h1, hexVal h2 with
  | Some a, Some b => Some (16 * a + b)
  | _, _ => None
  end.

Definition hexDigit (n : Z) : ascii :=
  if n <? 10 then chr (48 + n) else chr (55 + n).

(** ["%XX"], upper case *)
Definition percentByte (c : ascii) : string :=
  String "%" (String (hexDigit (code c / 16)) (String (hexDigit (code c mod 16)) EmptyString)).

Definition uriReserved (c : ascii) : bool := includesChar ";/?:@&=+$," c.
Definition uriUnescaped (c : ascii) : bool :=
  isAlpha c || isDigit c || includesChar "-_.!~*'()" c.

Inductive token :=
| Lit (c : ascii)
| Esc (b : Z) (h1 h2 : ascii).

(** The code units of the string, each [%XX] read as one octet; [None]
    where a [%] is not followed by two hexadecimal digits. *)
Fixpoint tokens (s : string) : option (list token) :=
  match s with
  | EmptyString => Some []
  | String c r =>
      if Ascii.eqb c "%" then
        match r with
        | String h1 (String h2 r') =>
            match hexOctet h1 h2 with
            | Some b => option_map (cons (Esc b h1 h2)) (tokens r')
            | None => None
            end
        | _ => None
        end
      else option_map (cons (Lit c)) (tokens r)
  end.

Definition between (lo hi b : Z) : bool := (lo <=? b) && (b <=? hi).

(** Well-formed UTF-8 sequences of two, three and four octets. *)
Definition utf8_2 (b1 b2 : Z) : bool :=
  between 194 223 b1 && between 128 191 b2.

Definition utf8_3 (b1 b2 b3 : Z) : bool :=
  ((b1 =? 224) && between 160 191 b2 && between 128 191 b3)
  || (between 225 236 b1 && between 128 191 b2 && between 128 191 b3)
  || ((b1 =? 237) && between 128 159 b2 && between 128 191 b3)
  || (between 238 239 b1 && between 128 191 b2 && between 128 191 b3).

Definition utf8_4 (b1 b2 b3 b4 : Z) : bool :=
  ((b1 =? 240) && between 144 191 b2 && between 128 191 b3 && between 128 191 b4)
  || (between 241 243 b1 && between 128 191 b2 && between 128 191 b3 && between 128 191 b4)
  || ((b1 =? 244) && between 128 143 b2 && between 128 191 b3 && between 128 191 b4).

(** [Decode(string, preserveEscapeSet)] over the octets: an octet below
    128 is its character, unless the character is in the preserved set,
    where the escape stays as written; a leading octet takes its
    continuation escapes, and the sequence must be well-formed UTF-8. *)
Fixpoint decodeTokens (preserve : ascii -> bool) (ts : list token) : option string :=
  match ts with
  | [] => Some EmptyString
  | Lit c :: r => option_map (String c) (decodeTokens preserve r)
  | Esc b h1 h2 :: r =>
      if b <? 128 then
        if preserve (chr b)
        then option_map (fun s => String "%" (String h1 (String h2 s))) (decodeTokens preserve r)
        else option_map (String (chr b)) (decodeTokens preserve r)
      else if between 192 223 b then
        match r with
        | Esc b2 _ _ :: r2 =>
            if utf8_2 b b2
            then option_map (fun s => String (chr b) (String (chr b2) s)) (decodeTokens preserve r2)
            else None
        | _ => None
        end
      else if between 224 239 b then
        match r with
        | Esc b2 _ _ :: Esc b3 _ _ :: r3 =>
            if utf8_3 b b2 b3
            then option_map (fun s => String (chr b) (String (chr b2) (String (chr b3) s)))
                   (decodeTokens preserve r3)
            else None
        | _ => None
        end
      else if between 240 247 b then
        match r with
        | Esc b2 _ _ :: Esc b3 _ _ :: Esc b4 _ _ :: r4 =>
            if utf8_4 b b2 b3 b4
            then option_map
                   (fun s => String (chr b) (String (chr b2) (String (chr b3) (String (chr b4) s))))
                   (decodeTokens preserve r4)
            else None
        | _ => None
        end
      else None
  end.

(** [decodeURI(s)]; it throws a [URIError] on a malformed sequence. *)
Definition decodeURI (s : string) : completion string :=
  match tokens s with
  | None => Throw URIError
  | Some ts =>
      match decodeTokens (fun c => uriReserved c || Ascii.eqb c "#") ts with
      | None => Throw URIError
      | Some r => Normal r
      end
  end.

(** [encodeURI(s)] *)
Fixpoint encodeURI (s : string) : string :=
  match s with
  | EmptyString => EmptyString
  | String c r =>
      (if uriReserved c || uriUnescaped c || Ascii.eqb c "#" then str c else percentByte c)
      ++ encodeURI r
  end.

End Js.

(* ================================================================== *)
(** ** [URL] objects (WHATWG URL), for request targets in origin form  *)
(* ================================================================== *)

Module Url.
Import Js.

(** A parsed [http://example.com/...] URL: the path as its segments, the
    query and the fragment ([None] where the URL has none).  A request
    target in origin form takes the scheme and the host of the base and
    has no credentials and no port, so these are not fields, and the
    origin is the one of the base. *)
Record URL := mkURL {
  path : list string;
  query : option string;
  fragment : option string
}.

Definition origin (u : URL) : string := "http://example.com".

Fixpoint serializePath (segs : list string) : string :=
  match segs with
  | [] => EmptyString
  | seg :: r => String "/" seg ++ serializePath r
  end.

Definition pathname (u : URL) : string := serializePath (path u).

Definition href (u : URL) : string :=
  origin u ++ pathname u
  ++ match query u with Some q => String "?" q | None => EmptyString end
  ++ match fragment u with Some f => String "#" f | None => EmptyString end.

Definition c0OrAbove (c : ascii) : bool := (code c <=? 31) || (126 <? code c).
Definition querySet (c : ascii) : bool :=
  c0OrAbove c || Ascii.eqb c " " || Ascii.eqb c dquote || includesChar "#<>" c.
Definition specialQuerySet (c : ascii) : bool := querySet c || Ascii.eqb c "'".
Definition fragmentSet (c : ascii) : bool :=
  c0OrAbove c || Ascii.eqb c " " || Ascii.eqb c dquote || includesChar "<>`" c.
Definition pathSet (c : ascii) : bool := querySet c || includesChar "?^`{}" c.

Fixpoint percentEncode (set : ascii -> bool) (s : string) : string :=
  match s with
  | EmptyString => EmptyString
  | String c r => (if set c then percentByte c else str c) ++ percentEncode set r
  end.

Definition isSlash (c : ascii) : bool := Ascii.eqb c "/" || Ascii.eqb c "\".

(** The segments between the separators: never an empty list. *)
Fixpoint splitSegs (s : string) : list string :=
  match s with
  | EmptyString => [EmptyString]
  | String c r =>
      if isSlash c then EmptyString :: splitSegs r
      else
        match splitSegs r with
        | h :: t => String c h :: t
        | [] => [str c]
        end
  end.

Definition isSingleDot (seg : string) : bool :=
  let l := toLowerCase seg in String.eqb l "." || String.eqb l "%2e".

Definition isDoubleDot (seg : string) : bool :=
  let l := toLowerCase seg in
  String.eqb l ".." || String.eqb l ".%2e" || String.eqb l "%2e." || String.eqb l "%2e%2e".

(** The path state, a segment at a time; [acc] is the path so far, last
    segment first. *)
Fixpoint pathState (segs : list string) (acc : list string) : list string :=
  match segs with
  | [] => rev acc
  | [seg] =>
      if isDoubleDot seg then rev (EmptyString :: tl acc)
      else if isSingleDot seg then rev (EmptyString :: acc)
      else rev (seg :: acc)
  | seg :: rest =>
      if isDoubleDot seg then pathState rest (tl acc)
      else if isSingleDot seg then pathState rest acc
      else pathState rest (seg :: acc)
  end.

Definition parsePath (s : string) : list string :=
  pathState (map (percentEncode pathSet) (splitSegs s)) [].

(** Split at the first occurrence of the character. *)
Fixpoint cut (s : string) (c : ascii) : string * option string :=
  match s with
  | EmptyString => (EmptyString, None)
  | String d r =>
      if Ascii.eqb d c then (EmptyString, Some r)
      else let '(a, b) := cut r c in (String d a, b)
  end.

Fixpoint allChars (p : ascii -> bool) (s : string) : bool :=
  match s with
  | EmptyString => true
  | String c r => p c && allChars p r
  end.

(** Origin form: one leading slash, and no space or control character
    (a request line holds none). *)
Definition originForm (s : string) : bool :=
  match s with
  | String "/" r =>
      match r with
      | String c _ => negb (isSlash c)
      | EmptyString => true
      end
      && allChars (fun c => 32 <? code c) s
  | _ => false
  end.

Definition TypeError : JsError :=
  mkError "TypeError" "Invalid URL" None None.

(** [new URL(input, 'http://example.com')] for [input] in origin form.
    The other forms of a request target (with a scheme or an authority)
    are not modelled and are rejected here. *)
Definition originFormURL (input : string) : completion URL :=
  if originForm input then
    let '(s1, frag) := cut input "#" in
    let '(p, q) := cut s1 "?" in
    Normal (mkURL (parsePath (slice p 1))
                  (option_map (percentEncode specialQuerySet) q)
                  (option_map (percentEncode fragmentSet) frag))
  else Throw TypeError.

Fixpoint removeChars (p : ascii -> bool) (s : string) : string :=
  match s with
  | EmptyString => EmptyString
  | String c r => if p c then removeChars p r else String c (removeChars p r)
  end.

Definition isTabOrNewline (c : ascii) : bool :=
  (code c =? 9) || (code c =? 10) || (code c =? 13).

(** [url.pathname = v]: the path is parsed again from [v], starting in
    the path start state; [?] and [#] do not end the path there. *)
Definition setPathname (u : URL) (v : string) : URL :=
  let v := removeChars isTabOrNewline v in
  let v := match v with
           | String c r => if isSlash c then r else v
           | EmptyString => v
           end in
  mkURL (parsePath v) (query u) (fragment u).

End Url.

(* ================================================================== *)
(** ** [node:path], POSIX flavour                                      *)
(* ================================================================== *)

Module NodePath.
Import Js.

Record ExtState := mkExt {
  startDot : Z;
  startPart : Z;
  end_ : Z;
  matchedSlash : bool;
  preDotState : Z;
  stopped : bool
}.

(** One turn of the loop of [extname], at index [i] on character [c]. *)
Definition extStep (st : ExtState) (i : Z) (c : ascii) : ExtState :=
  if stopped st then st
  else if Ascii.eqb c "/" then
    if negb (matchedSlash st)
    then mkExt (startDot st) (i + 1) (end_ st) (matchedSlash st) (preDotState st) true
    else st
  else
    let st :=
      if end_ st =? -1
      then mkExt (startDot st) (startPart st) (i + 1) false (preDotState st) false
      else st in
    if Ascii.eqb c "."
    then
      if startDot st =? -1
      then mkExt i (startPart st) (end_ st) (matchedSlash st) (preDotState st) false
      else if negb (preDotState st =? 1)
      then mkExt (startDot st) (startPart st) (end_ st) (matchedSlash st) 1 false
      else st
    else if negb (startDot st =? -1)
    then mkExt (startDot st) (startPart st) (end_ st) (matchedSlash st) (-1) false
    else st.

(** The characters with their indices, last first. *)
Fixpoint indexedRev (s : string) (i : Z) (acc : list (Z * ascii)) : list (Z * ascii) :=
  match s with
  | EmptyString => acc
  | String c r => indexedRev r (i + 1) ((i, c) :: acc)
  end.

Fixpoint substring (s : string) (from len : nat) : string :=
  match len, slice s from with
  | S len', String c _ => String c (substring s (S from) len')
  | _, _ => EmptyString
  end.

(** [path.extname(p)] *)
Definition extname (p : string) : string :=
  let st := fold_left (fun st ic => extStep st (fst ic) (snd ic))
              (indexedRev p 0 []) (mkExt (-1) 0 (-1) true 0 false) in
  if (startDot st =? -1) || (end_ st =? -1) || (preDotState st =? 0)
     || ((preDotState st =? 1) && (startDot st =? end_ st - 1)
         && (startDot st =? startPart st + 1))
  then EmptyString
  else substring p (Z.to_nat (startDot st)) (Z.to_nat (end_ st - startDot st)).

(** The segments of a path between slashes. *)
Fixpoint segments (s : string) : list string :=
  match s with
  | EmptyString => [EmptyString]
  | String c r =>
      if Ascii.eqb c "/" then EmptyString :: segments r
      else
        match segments r with
        | h :: t => String c h :: t
        | [] => [str c]
        end
  end.

(** [normalizeString]: empty and [.] segments go, [..] removes the
    segment before it, or stays where there is none and the path may
    rise above its start.  [acc] is the result so far, last first. *)
Fixpoint normalizeSegs (allowAboveRoot : bool) (segs acc : list string) : list string :=
  match segs with
  | [] => rev acc
  | seg :: rest =>
      if String.eqb seg EmptyString || String.eqb seg "." then normalizeSegs allowAboveRoot rest acc
      else if String.eqb seg ".." then
        match acc with
        | top :: acc' =>
            if String.eqb top ".."
            then normalizeSegs allowAboveRoot rest (seg :: acc)
            else normalizeSegs allowAboveRoot rest acc'
        | [] =>
            if allowAboveRoot then normalizeSegs allowAboveRoot rest [seg]
            else normalizeSegs allowAboveRoot rest []
        end
      else normalizeSegs allowAboveRoot rest (seg :: acc)
  end.

Definition normalizeString (p : string) (allowAboveRoot : bool) : string :=
  join "/" (normalizeSegs allowAboveRoot (segments p) []).

(** [path.normalize(p)] *)
Definition normalize (p : string) : string :=
  if (String.length p =? 0)%nat then "."
  else
    let isAbsolute := startsWith p "/" in
    let trailingSeparator := endsWith p "/" in
    let p := normalizeString p (negb isAbsolute) in
    if (String.length p =? 0)%nat then
      if isAbsolute then "/" else if trailingSeparator then "./" else "."
    else
      let p := if trailingSeparator then p ++ "/" else p in
      if isAbsolute then String "/" p else p.

(** [path.resolve(a, b)], the process being in directory [cwd]: from the
    last argument to the first and then [cwd], until the path is
    absolute. *)
Definition resolve (cwd a b : string) : string :=
  let step (st : string * bool) (p : string) :=
    let '(resolvedPath, resolvedAbsolute) := st in
    if resolvedAbsolute then st
    else if (String.length p =? 0)%nat then st
    else (p ++ "/" ++ resolvedPath, startsWith p "/") in
  let '(resolvedPath, resolvedAbsolute) :=
    fold_left step [b; a; cwd] (EmptyString, false) in
  let resolvedPath := normalizeString resolvedPath (negb resolvedAbsolute) in
  if resolvedAbsolute then String "/" resolvedPath
  else if (0 <? String.length resolvedPath)%nat then resolvedPath else ".".

End NodePath.

(* ================================================================== *)
(** ** The [escape-html] package                                       *)
(* ================================================================== *)

Definition escapeChar (c : ascii) : string :=
  if Ascii.eqb c Js.dquote then "&quot;"
  else if Ascii.eqb c "&" then "&amp;"
  else if Ascii.eqb c "'" then "&#39;"
  else if Ascii.eqb c "<" then "&lt;"
  else if Ascii.eqb c ">" then "&gt;"
  else Js.str c.

Fixpoint escapeHtml (s : string) : string :=
  match s with
  | EmptyString => EmptyString
  | String c r => escapeChar c ++ escapeHtml r
  end.

(* ================================================================== *)
(** ** The resolved configuration                                      *)
(* ================================================================== *)

(** [find] of an alias is a string or a regular expression.  A regular
    expression is taken with the two methods the code calls on it, for
    matchers without the [g] and [y] flags (no [lastIndex] state). *)
Record RegExp := mkRegExp {
  re_test : string -> bool;
  re_replace : string -> string -> string   (* subject, replacement *)
}.

Inductive AliasFind :=
| FindString (s : string)
| FindRegExp (r : RegExp).

Record Alias := mkAlias {
  find : AliasFind;
  replacement : string
}.

(** [config.server.fs] *)
Record FsOptions := mkFs {
  strict : bool;
  allow : list string
}.

Record ResolvedConfig := mkConfig {
  root : string;
  publicDir : string;
  server_fs : FsOptions;
  server_headers : option (list (string * string));
  fsDenyGlob : string -> bool;
  safeModulePaths : gset string;
  resolve_alias : list Alias
}.

Record ViteDevServer := mkServer {
  config : ResolvedConfig
}.

(* ================================================================== *)
(** ** What the module imports                                         *)
(* ================================================================== *)

(** The helpers of ['../../utils'] and ['../../../shared/utils'] and the
    platform services the module calls (the disk, the [URL] constructor
    and [node:path], which differs between POSIX and Windows).  The
    development is stated over any implementation of them. *)
Class Imports := {
  (* '../../utils' *)
  fsPathFromUrl : string -> string;
  isImportRequest : string -> bool;
  isInternalRequest : string -> bool;
  isParentDirectory : string -> string -> bool;
  isSameFilePath : string -> string -> bool;
  normalizePath : string -> string;
  removeLeadingSlash : string -> string;
  urlRE_test : string -> bool;
  (* '../../../shared/utils' *)
  cleanUrl : string -> string;
  isWindows : bool;
  slash : string -> string;
  withTrailingSlash : string -> string;
  (* the disk, as [isFileReadable] sees it *)
  isFileReadable : string -> bool;
  (* [new URL(input, 'http://example.com')] *)
  newURL : string -> completion Url.URL;
  (* 'node:path' *)
  path_extname : string -> string;
  path_resolve : string -> string -> string
}.

(** Modelled from the spec: the source of ['../../constants'] is missing;
    [FS_PREFIX] is the escape-hatch marker, the prefix of the request
    [/@fs/home/user/linked-pkg/index.js]. *)
Definition FS_PREFIX : string := "/@fs/".

(* ================================================================== *)
(** ** Access policy engine                                            *)
(* ================================================================== *)

Section Policy.
Context `{Imports}.

Definition isFileInTargetPath (targetPath filePath : string) : bool :=
  isSameFilePath targetPath filePath || isParentDirectory targetPath filePath.

(** [fs.allow.some(p)] *)
Definition some {A} (p : A -> bool) (l : list A) : bool := existsb p l.

Definition isFileLoadingAllowed (config : ResolvedConfig) (filePath : string) : bool :=
  let fs := server_fs config in
  if negb (strict fs) then true
  else if fsDenyGlob config filePath then false
  else if bool_decide (filePath ∈ safeModulePaths config) then true
  else if some (fun uri => isFileInTargetPath uri filePath) (allow fs) then true
  else false.

(** The decision procedure as the specification words it, one rule for
    each step; a rule applies only where every earlier one did not. *)
Inductive classify (policy : ResolvedConfig) (absolutePath : string) : bool -> Prop :=
| classify_not_strict :
    strict (server_fs policy) = false ->
    classify policy absolutePath true
| classify_deny :
    strict (server_fs policy) = true ->
    fsDenyGlob policy absolutePath = true ->
    classify policy absolutePath false
| classify_trusted :
    strict (server_fs policy) = true ->
    fsDenyGlob policy absolutePath = false ->
    absolutePath ∈ safeModulePaths policy ->
    classify policy absolutePath true
| classify_allow_root entry :
    strict (server_fs policy) = true ->
    fsDenyGlob policy absolutePath = false ->
    absolutePath ∉ safeModulePaths policy ->
    In entry (allow (server_fs policy)) ->
    isSameFilePath entry absolutePath = true
      \/ isParentDirectory entry absolutePath = true ->
    classify policy absolutePath true
| classify_default :
    strict (server_fs policy) = true ->
    fsDenyGlob policy absolutePath = false ->
    absolutePath ∉ safeModulePaths policy ->
    (forall entry, In entry (allow (server_fs policy)) ->
       isSameFilePath entry absolutePath = false
       /\ isParentDirectory entry absolutePath = false) ->
    classify policy absolutePath false.

Inductive AccessResult := allowed | denied | fallback.

Definition checkLoadingAccess (config : ResolvedConfig) (path : string) : AccessResult :=
  if isFileLoadingAllowed config (slash path) then allowed
  else if isFileReadable path then denied
  else fallback.

(** The two call shapes of [isFileServingAllowed]: the implementation
    signature takes [ResolvedConfig | string] and [string | ViteDevServer]
    and tells them apart with [typeof urlOrServer === 'string']. *)
Inductive ConfigOrUrl :=
| IsConfig (c : ResolvedConfig)
| IsUrl (u : string).

Inductive UrlOrServer :=
| IsString (u : string)
| IsServer (s : ViteDevServer).

(** The two overload signatures admit [(config, url)] and [(url, server)];
    the casts of the implementation are checked here, the result being
    [None] for the two shapes the signatures exclude. *)
Definition isFileServingAllowed (configOrUrl : ConfigOrUrl) (urlOrServer : UrlOrServer)
  : option bool :=
  let config :=
    match urlOrServer with
    | IsString _ => match configOrUrl with IsConfig c => Some c | IsUrl _ => None end
    | IsServer s => Some (config s)
    end in
  let url :=
    match urlOrServer with
    | IsString u => Some u
    | IsServer _ => match configOrUrl with IsUrl u => Some u | IsConfig _ => None end
    end in
  match config, url with
  | Some config, Some url =>
      if negb (strict (server_fs config)) then Some true
      else
        let filePath := fsPathFromUrl url in
        Some (isFileLoadingAllowed config filePath)
  | _, _ => None
  end.

End Policy.

(* ================================================================== *)
(** ** Response, logger and the state a request handler works on       *)
(* ================================================================== *)

Record ServerResponse := mkRes {
  statusCode : Z;
  headersSet : list (string * string);   (* the [setHeader] calls, latest first *)
  written : list string;                 (* the [write] calls, in order *)
  ended : bool
}.

Inductive LogCall :=
| LogError (msg : string)
| LogWarnOnce (msg : string).

Record World := mkWorld {
  res : ServerResponse;
  logged : list LogCall                  (* the logger calls, in order *)
}.

(** A computation on the response and the logger that returns or throws. *)
Definition M (A : Type) : Type := World -> World * completion A.

Definition ret {A} (a : A) : M A := fun w => (w, Normal a).
Definition throw {A} (e : JsError) : M A := fun w => (w, Throw e).
Definition lift {A} (c : completion A) : M A := fun w => (w, c).

Definition mbind {A B} (m : M A) (k : A -> M B) : M B :=
  fun w =>
    match m w with
    | (w', Normal a) => k a w'
    | (w', Throw e) => (w', Throw e)
    end.

(** [try { m } catch (e) { h e }] *)
Definition catch {A} (m : M A) (h : JsError -> M A) : M A :=
  fun w =>
    match m w with
    | (w', Normal a) => (w', Normal a)
    | (w', Throw e) => h e w'
    end.

Notation "'do' x '<-' m ';' k" := (mbind m (fun x => k))
  (at level 10, x name, m at level 100, k at level 200).
Notation "m ';;' k" := (mbind m (fun _ => k))
  (at level 100, k at level 200, right associativity).

Definition setStatusCode (n : Z) : M unit :=
  fun w => (mkWorld (mkRes n (headersSet (res w)) (written (res w)) (ended (res w)))
                    (logged w), Normal tt).

(** [res.setHeader(name, value)], recorded with the latest call first.
    The call is taken to succeed: a name or a value that the platform
    refuses, and headers that were sent already, are not modelled. *)
Definition setHeader (name value : string) : M unit :=
  fun w => (mkWorld (mkRes (statusCode (res w)) ((name, value) :: headersSet (res w))
                           (written (res w)) (ended (res w)))
                    (logged w), Normal tt).

Definition write (chunk : string) : M unit :=
  fun w => (mkWorld (mkRes (statusCode (res w)) (headersSet (res w))
                           (written (res w) ++ [chunk])%list (ended (res w)))
                    (logged w), Normal tt).

Definition end_response : M unit :=
  fun w => (mkWorld (mkRes (statusCode (res w)) (headersSet (res w)) (written (res w)) true)
                    (logged w), Normal tt).

Definition logger (c : LogCall) : M unit :=
  fun w => (mkWorld (res w) (logged w ++ [c])%list, Normal tt).

(** What was written to the response, in one piece. *)
Definition bodyOf (r : ServerResponse) : string :=
  fold_right String.append EmptyString (written r).

(* ================================================================== *)
(** ** Denial reporting                                                *)
(* ================================================================== *)

Definition nl : string := Js.str Js.newline.
Definition dq : string := Js.str Js.dquote.

Definition ERR_DENIED_FILE : string := "ERR_DENIED_FILE".

Definition html_head : string :=
  nl ++ "    <body>" ++ nl ++ "      <h1>403 Restricted</h1>" ++ nl ++ "      <p>".

Definition html_tail : string :=
  "</p>" ++ nl ++ "      <style>" ++ nl ++ "        body {" ++ nl
  ++ "          padding: 1em 2em;" ++ nl ++ "        }" ++ nl ++ "      </style>" ++ nl
  ++ "    </body>" ++ nl ++ "  ".

Definition renderRestrictedErrorHTML (msg : string) : string :=
  html_head ++ Js.replaceAllChar (escapeHtml msg) Js.newline "<br/>" ++ html_tail.

Definition urlMessage (id : string) : string :=
  "The request id " ++ dq ++ id ++ dq ++ " is outside of Vite serving allow list.".

Definition hintMessage (server : ViteDevServer) : string :=
  nl ++ Js.join nl (map (fun i => "- " ++ i) (allow (server_fs (config server))))
  ++ nl ++ nl
  ++ "Refer to docs https://vite.dev/config/server-options.html#server-fs-allow for configurations and more details.".

Definition respondWithAccessDenied (id : string) (server : ViteDevServer) : M unit :=
  logger (LogError (urlMessage id)) ;;
  logger (LogWarnOnce (hintMessage server ++ nl)) ;;
  setStatusCode 403 ;;
  write (renderRestrictedErrorHTML (urlMessage id ++ nl ++ hintMessage server)) ;;
  end_response.

(* ================================================================== *)
(** ** The static file server collaborator ([sirv]) and its options    *)
(* ================================================================== *)

(** What a request handler did when it returned. *)
Inductive Step :=
| Responded        (* it wrote the response *)
| CalledNext.      (* it passed the request on with [next()] *)

(** A handler on [req.url]. *)
Definition Handler : Type := string -> M Step.

Record Options := mkOptions {
  dev : bool;
  etag : bool;
  extensions : list string;
  setHeaders : string -> M unit;
  shouldServe : option (string -> completion bool)
}.

(** [sirv(dir, options)] *)
Definition Sirv : Type := string -> Options -> Handler.

(** [/\.(?:[tj]sx?|[cm][tj]s)$/] *)
Definition knownJavascriptExtensionRE (pathname : string) : bool :=
  existsb (Js.endsWith pathname)
    [".ts"; ".tsx"; ".js"; ".jsx"; ".cts"; ".cjs"; ".mts"; ".mjs"].

Fixpoint setAll (headers : list (string * string)) : M unit :=
  match headers with
  | [] => ret tt
  | (name, value) :: r => setHeader name value ;; setAll r
  end.

Section Stages.
Context `{Imports}.

Definition deniedError (filePath : string) : JsError :=
  mkError "Error" "denied access" (Some ERR_DENIED_FILE) (Some filePath).

Definition sirvOptions (config : ResolvedConfig)
    (getHeaders : unit -> option (list (string * string)))
    (disableFsServeCheck : bool) : Options :=
  mkOptions true true []
    (fun pathname =>
       (if knownJavascriptExtensionRE pathname
        then setHeader "Content-Type" "text/javascript" else ret tt) ;;
       match getHeaders tt with
       | Some headers => setAll headers
       | None => ret tt
       end)
    (if disableFsServeCheck then None
     else Some (fun filePath =>
       match checkLoadingAccess config filePath with
       | denied => Throw (deniedError filePath)
       | fallback => Normal false
       | allowed => Normal true
       end)).

(** What a serving stage did with a request. *)
Inductive Outcome :=
| Declined                               (* [next()], nothing else done *)
| Delegated (url : string) (s : Step)    (* the collaborator ran on [req.url = url] *)
| AccessDenied.                          (* [respondWithAccessDenied] ran *)

(* ---------------------------------------------------------------- *)
(** *** Public directory stage                                       *)
(* ---------------------------------------------------------------- *)

Definition toFilePath (url : string) : string :=
  let filePath := cleanUrl url in
  let filePath :=
    if Js.includesChar filePath "%"
    then try_or (Js.decodeURI filePath) filePath
    else filePath in
  normalizePath filePath.

Definition viteServePublicMiddleware (serve : Handler)
    (publicFiles : option (gset string)) (req_url : string) : M Outcome :=
  if match publicFiles with
     | Some files => negb (bool_decide (toFilePath req_url ∈ files))
     | None => false
     end
     || isImportRequest req_url
     || isInternalRequest req_url
     || urlRE_test req_url
  then ret Declined
  else do s <- serve req_url; ret (Delegated req_url s).

Definition servePublicMiddleware (sirv : Sirv) (server : ViteDevServer)
    (publicFiles : option (gset string)) : string -> M Outcome :=
  let dir := publicDir (config server) in
  let serve := sirv dir (sirvOptions (config server)
                           (fun _ => server_headers (config server)) true) in
  viteServePublicMiddleware serve publicFiles.

(* ---------------------------------------------------------------- *)
(** *** Project root stage                                           *)
(* ---------------------------------------------------------------- *)

(** The requests the stage leaves to the next handler. *)
Definition staticDeclines (req_url : string) : bool :=
  let cleanedUrl := cleanUrl req_url in
  Js.endsWith cleanedUrl "/"
  || String.eqb (path_extname cleanedUrl) ".html"
  || isInternalRequest req_url
  || Js.startsWith req_url "//".

(** [typeof find === 'string' ? pathname.startsWith(find)
                                : find.test(pathname)] *)
Definition aliasMatches (a : Alias) (pathname : string) : bool :=
  match find a with
  | FindString s => Js.startsWith pathname s
  | FindRegExp r => re_test r pathname
  end.

(** [pathname.replace(find, replacement)] *)
Definition aliasReplace (a : Alias) (pathname : string) : string :=
  match find a with
  | FindString s => Js.replace pathname s (replacement a)
  | FindRegExp r => re_replace r pathname (replacement a)
  end.

(** The loop over [server.config.resolve.alias], left at the first
    match: the rewritten pathname, [None] for [undefined]. *)
Fixpoint applyAlias (aliases : list Alias) (pathname : string) : option string :=
  match aliases with
  | [] => None
  | a :: rest =>
      if aliasMatches a pathname then Some (aliasReplace a pathname)
      else applyAlias rest pathname
  end.

(** A value of type [string | undefined] in a condition. *)
Definition defined_truthy (v : option string) : bool :=
  match v with
  | Some s => Js.truthy s
  | None => false
  end.

(** [redirectedPathname || pathname] *)
Definition or_else (v : option string) (d : string) : string :=
  match v with
  | Some s => if Js.truthy s then s else d
  | None => d
  end.

Record Resolved := mkResolved {
  redirectedPathname : option string;
  resolvedPathname : string;
  fileUrl : string;
  newUrl : string          (* [req.url] as the collaborator gets it *)
}.

(** From the decoded pathname to the file path and the request URL
    (the body of the stage between that test and the call of [serve]). *)
Definition resolveStatic (dir : string) (aliases : list Alias)
    (req_url : string) (url : Url.URL) (pathname : string) : Resolved :=
  let redirectedPathname := applyAlias aliases pathname in
  let redirectedPathname :=
    if defined_truthy redirectedPathname then
      match redirectedPathname with
      | Some r =>
          if Js.startsWith r (withTrailingSlash dir)
          then Some (Js.slice r (String.length dir))
          else Some r
      | None => None
      end
    else redirectedPathname in
  let resolvedPathname := or_else redirectedPathname pathname in
  let fileUrl := path_resolve dir (removeLeadingSlash resolvedPathname) in
  let fileUrl :=
    if Js.endsWith resolvedPathname "/"
       && negb (match Js.lastChar fileUrl with
                | Some c => Ascii.eqb c "/"
                | None => false
                end)
    then withTrailingSlash fileUrl
    else fileUrl in
  let req_url :=
    if defined_truthy redirectedPathname then
      match redirectedPathname with
      | Some r =>
          let url := Url.setPathname url (Js.encodeURI r) in
          Js.slice (Url.href url) (String.length (Url.origin url))
      | None => req_url
      end
    else req_url in
  mkResolved redirectedPathname resolvedPathname fileUrl req_url.

(** Direct root-joining, as the specification words it: the path, with
    any leading separator removed, resolved against the served root; a
    trailing-slash marker is preserved if the path ended in [/] and the
    join did not already produce one. *)
Definition rootJoin (servedRoot path : string) : string :=
  let joined := path_resolve servedRoot (removeLeadingSlash path) in
  if Js.endsWith path "/" && negb (Js.endsWith joined "/")
  then withTrailingSlash joined
  else joined.

(** [e && 'code' in e && e.code === ERR_DENIED_FILE] *)
Definition isDeniedError (e : JsError) : bool :=
  match err_code e with
  | Some c => String.eqb c ERR_DENIED_FILE
  | None => false
  end.

(** [${e.path}] in the message: a missing property prints as
    [undefined]. *)
Definition pathOf (e : JsError) : string :=
  match err_path e with
  | Some p => p
  | None => "undefined"
  end.

(** [try { serve(req, res, next) } catch (e) { ... }] of the root and the
    raw-fs stage. *)
Definition serveGuarded (serve : Handler) (server : ViteDevServer) (req_url : string)
  : M Outcome :=
  catch (do s <- serve req_url; ret (Delegated req_url s))
        (fun e =>
           if isDeniedError e
           then respondWithAccessDenied (pathOf e) server ;; ret AccessDenied
           else throw e).

Definition viteServeStaticMiddleware (dir : string) (serve : Handler)
    (server : ViteDevServer) (req_url : string) : M Outcome :=
  if staticDeclines req_url then ret Declined
  else
    do url <- lift (newURL req_url);
    do pathname <- lift (Js.decodeURI (Url.pathname url));
    let r := resolveStatic dir (resolve_alias (config server)) req_url url pathname in
    serveGuarded serve server (newUrl r).

Definition serveStaticMiddleware (sirv : Sirv) (server : ViteDevServer)
  : string -> M Outcome :=
  let dir := root (config server) in
  let serve := sirv dir (sirvOptions (config server)
                           (fun _ => server_headers (config server)) false) in
  viteServeStaticMiddleware dir serve server.

(* ---------------------------------------------------------------- *)
(** *** Raw filesystem stage                                         *)
(* ---------------------------------------------------------------- *)

(** [s.replace(/^[A-Z]:/i, '')] *)
Definition stripDrive (s : string) : string :=
  match s with
  | String c (String ":" r) => if Js.isAlpha c then r else s
  | _ => s
  end.

(** The request URL the collaborator rooted at [/] gets.  The prefix is
    cut by its length; it is ASCII, so that its length in bytes is its
    length in code units. *)
Definition rawFsUrl (req_url : string) : completion string :=
  let* url := newURL req_url in
  let* pathname := Js.decodeURI (Url.pathname url) in
  let newPathname := Js.slice pathname (String.length FS_PREFIX) in
  let newPathname := if isWindows then stripDrive newPathname else newPathname in
  let url := Url.setPathname url (Js.encodeURI newPathname) in
  Normal (Js.slice (Url.href url) (String.length (Url.origin url))).

(** The [URL] constructor of the platform agrees with [Url.originFormURL]
    on the request targets in origin form. *)
Definition OriginFormParser : Prop :=
  forall s, Url.originForm s = true -> newURL s = Url.originFormURL s.

Definition viteServeRawFsMiddleware (serveFromRoot : Handler)
    (server : ViteDevServer) (req_url : string) : M Outcome :=
  if Js.startsWith req_url FS_PREFIX then
    do req_url <- lift (rawFsUrl req_url);
    serveGuarded serveFromRoot server req_url
  else ret Declined.

Definition serveRawFsMiddleware (sirv : Sirv) (server : ViteDevServer)
  : string -> M Outcome :=
  let serveFromRoot := sirv "/" (sirvOptions (config server)
                                   (fun _ => server_headers (config server)) false) in
  viteServeRawFsMiddleware serveFromRoot server.

End Stages.

(* ================================================================== *)
(** ** Predicates on strings used in the statements                    *)
(* ================================================================== *)

(** The interpolated text as it stands in the page. *)
Definition inHtml (s : string) : string :=
  Js.replaceAllChar (escapeHtml s) Js.newline "<br/>".

(** What may follow a [<]: anything but the start of [sc...]. *)
Definition afterLt (r : string) : bool :=
  match r with
  | String "s" (String c _) => negb (Ascii.eqb c "c")
  | String "s" EmptyString => false
  | String _ _ => true
  | EmptyString => false
  end.

(** No [<] of the string opens a [script] tag. *)
Fixpoint noScript (s : string) : bool :=
  match s with
  | EmptyString => true
  | String c r => (if Ascii.eqb c "<" then afterLt r else true) && noScript r
  end.

(** A character that is none of [<], [>], the quote and the double
    quote. *)
Definition notMarkup (c : ascii) : bool :=
  negb (Js.includesChar "<>'" c || Ascii.eqb c Js.dquote).

(** The characters a URL carries unchanged through parsing,
    [decodeURI] and [encodeURI]. *)
Definition stableChar (c : ascii) : bool :=
  Js.isAlpha c || Js.isDigit c || Js.includesChar "-_.!~*'();:@&=+$,/" c.

(** A segment that is neither [.] nor [..]. *)
Definition plainSeg (seg : string) : bool :=
  negb (Url.isSingleDot seg) && negb (Url.isDoubleDot seg).

(** An absolute path of such characters with no [.] or [..] segment. *)
Definition stablePath (p : string) : bool :=
  match p with
  | String "/" q => Url.allChars stableChar q && forallb plainSeg (Url.splitSegs q)
  | _ => false
  end.

(** The string without one leading separator, as the path start state
    of the URL parser takes it. *)
Definition dropLead (v : string) : string :=
  match v with
  | String c r => if Url.isSlash c then r else v
  | EmptyString => v
  end.

(* ================================================================== *)
(** ** The imported helpers                                            *)
(* ================================================================== *)

(** The sources of ['../../utils'] and ['../../../shared/utils'] are
    missing: the helpers imported from them are modelled here from the
    specification, to run the code on examples. *)

Module ViteUtils.
Import Js.

(** Modelled from the spec: [cleanUrl], imported from
    ['../../../shared/utils'], strips any query or fragment suffix from
    the URL to obtain the path component. *)
Fixpoint cleanUrl (url : string) : string :=
  match url with
  | EmptyString => EmptyString
  | String c r =>
      if Ascii.eqb c "?" || Ascii.eqb c "#" then EmptyString
      else String c (cleanUrl r)
  end.

(** Modelled from the spec: [withTrailingSlash], imported, gives the
    separator-terminated form of a path. *)
Definition withTrailingSlash (p : string) : string :=
  match lastChar p with
  | Some "/"%char => p
  | _ => p ++ "/"
  end.

(** Modelled from the spec: [removeLeadingSlash], imported, removes a
    leading separator. *)
Definition removeLeadingSlash (s : string) : string :=
  match s with
  | String "/" r => r
  | _ => s
  end.

(** Modelled from the spec: [slash], imported, gives the forward-slash
    form of a path. *)
Fixpoint slash (p : string) : string :=
  match p with
  | EmptyString => EmptyString
  | String c r => String (if Ascii.eqb c "\" then "/"%char else c) (slash r)
  end.

(** Modelled from the spec: [normalizePath], imported, normalizes a path
    to the forward-slash form. *)
Definition normalizePath (windows : bool) (id : string) : string :=
  NodePath.normalize (if windows then slash id else id).

(** Modelled from the spec: [isSameFilePath], imported; two paths denote
    the same entry when they are equal, without regard to case on a
    case-insensitive file system. *)
Definition isSameFilePath (caseInsensitive : bool) (file1 file2 : string) : bool :=
  String.eqb file1 file2
  || (caseInsensitive && String.eqb (toLowerCase file1) (toLowerCase file2)).

(** Modelled from the spec: [isParentDirectory], imported; the candidate
    is strictly inside the tree rooted at the target when its
    separator-terminated form starts with the target's and the two
    differ. *)
Definition isParentDirectory (caseInsensitive : bool) (dir file : string) : bool :=
  let starts a b := startsWith (withTrailingSlash a) (withTrailingSlash b) in
  (starts file dir || (caseInsensitive && starts (toLowerCase file) (toLowerCase dir)))
  && negb (isSameFilePath caseInsensitive dir file).

(** A query parameter [name] in the URL: [(\?|&)name(?:&|$)], with an
    optional [=] after the name where [eq] is set. *)
Definition markerAt (name : string) (eq : bool) (r : string) : bool :=
  let ends t := match t with
                | EmptyString => true
                | String c _ => Ascii.eqb c "&"
                end in
  startsWith r name
  && (let t := slice r (String.length name) in
      ends t || (eq && match t with
                       | String "=" t' => ends t'
                       | _ => false
                       end)).

Fixpoint hasMarker (name : string) (eq : bool) (url : string) : bool :=
  match url with
  | EmptyString => false
  | String c r =>
      ((Ascii.eqb c "?" || Ascii.eqb c "&") && markerAt name eq r)
      || hasMarker name eq r
  end.

(** Modelled from the spec: [isImportRequest], imported; an import
    request is identified by a reserved query marker, the parameter
    [import]. *)
Definition isImportRequest (url : string) : bool := hasMarker "import" true url.

(** Modelled from the spec: [urlRE], imported, recognizes the reserved
    query marker [url] (treat as raw URL reference). *)
Definition urlRE_test (url : string) : bool := hasMarker "url" false url.

(** Modelled from the spec: [isInternalRequest], imported; an internal
    request starts with a reserved path prefix of the server-generated
    endpoints, taken here to be [/@fs/], [/@id/], [/@vite/client] and
    [/@vite/env]. *)
Definition isInternalRequest (url : string) : bool :=
  existsb (startsWith url) [FS_PREFIX; "/@id/"; "/@vite/client"; "/@vite/env"].

(** Modelled from the spec: [fsPathFromUrl], imported, derives the
    filesystem path a URL names: the path component, without the
    escape-hatch prefix, as an absolute path. *)
Definition fsPathFromUrl (windows : bool) (url : string) : string :=
  let id := cleanUrl url in
  let fsPath :=
    normalizePath windows
      (if startsWith id FS_PREFIX then slice id (String.length FS_PREFIX) else id) in
  match fsPath with
  | String "/" _ => fsPath
  | _ => String "/" fsPath
  end.

(** The helpers over [node:path] of POSIX: the files [readable] says are
    readable, the process in directory [cwd].  [windows] is the flag
    [isWindows]; the path functions stay the POSIX ones whatever it is. *)
Definition helpers (windows caseInsensitive : bool) (readable : string -> bool)
    (cwd : string) : Imports :=
  Build_Imports
    (fsPathFromUrl windows) isImportRequest isInternalRequest
    (isParentDirectory caseInsensitive) (isSameFilePath caseInsensitive)
    (normalizePath windows) removeLeadingSlash urlRE_test
    cleanUrl windows slash withTrailingSlash
    readable
    Url.originFormURL
    NodePath.extname (NodePath.resolve cwd).

End ViteUtils.

(* ================================================================== *)
(** ** A file server and a project to run the stages on                *)
(* ================================================================== *)

Module Example.

(** A file server in the manner of [sirv] in [dev] mode: the file named
    by the decoded path of the URL under [dir] is served if it exists
    and [shouldServe] lets it, and the request is passed on otherwise. *)
Definition sirv (existsSync : string -> bool) : Sirv :=
  fun dir options req_url =>
    let pathname := ViteUtils.cleanUrl req_url in
    let pathname :=
      if Js.includesChar pathname "%"
      then try_or (Js.decodeURI pathname) pathname
      else pathname in
    let abs := NodePath.normalize (dir ++ "/" ++ pathname) in
    if Js.startsWith abs dir && existsSync abs then
      do ok <- lift (match shouldServe options with
                     | Some f => f abs
                     | None => Normal true
                     end);
      if ok then
        setHeaders options pathname ;;
        write ("<" ++ abs ++ ">") ;;
        end_response ;;
        ret Responded
      else ret CalledNext
    else ret CalledNext.

(** The files on the disk. *)
Definition disk (p : string) : bool :=
  existsb (String.eqb p)
    ["/proj/src/app.ts"; "/proj/.env"; "/proj/foo.js"; "/etc/passwd"; "/abs/A.txt"; "/a"].

Definition host : Imports := ViteUtils.helpers false false disk "/proj".

(** The same with the flag [isWindows] set. *)
Definition windowsHost : Imports := ViteUtils.helpers true true disk "/proj".

Definition project : ResolvedConfig :=
  mkConfig "/proj" "/proj/public"
    (mkFs true ["/proj"])
    None
    (fun p => Js.endsWith p "/.env")
    {["/proj/.env"]}
    [].

(** The policy of the scenario in the specification. *)
Definition scenario : ResolvedConfig :=
  mkConfig "/proj" "/proj/public"
    (mkFs true ["/proj"])
    None
    (fun p => Js.endsWith p "/.env")
    ∅
    [].

(** A project served from the filesystem root, with one alias. *)
Definition rootProject : ResolvedConfig :=
  mkConfig "/" "/public"
    (mkFs true ["/"])
    None
    (fun _ => false)
    ∅
    [mkAlias (FindString "/a") "/"].

Definition fresh : World := mkWorld (mkRes 200 [] [] false) [].

(** A collaborator that fails on every request. *)
Definition failing : Handler :=
  fun _ => throw (mkError "Error" "EACCES: permission denied" (Some "EACCES") None).

(** The collaborators of the root and of the raw-fs stage. *)
Definition serveRoot : Handler :=
  sirv disk "/proj" (sirvOptions (H := host) project (fun _ => None) false).

Definition serveFromRoot : Handler :=
  sirv disk "/" (sirvOptions (H := host) project (fun _ => None) false).

End Example.

(* ================================================================== *)
(** ** Further notions used in the statements                          *)
(* ================================================================== *)

(** Every [<] of the string opens a line break. *)
Fixpoint onlyBreaks (s : string) : bool :=
  match s with
  | EmptyString => true
  | String c r => (if Ascii.eqb c "<" then Js.startsWith r "br/>" else true) && onlyBreaks r
  end.

(** [url.search + url.hash], as they stand at the end of [url.href]. *)
Definition searchAndHash (u : Url.URL) : string :=
  match Url.query u with Some q => String "?" q | None => EmptyString end
  ++ match Url.fragment u with Some f => String "#" f | None => EmptyString end.

(** The policy [c'] permits at least what [c] permits: it is strict only
    if [c] is, every path it denies [c] denies, and it holds the trusted
    paths and the allow roots of [c]. *)
Definition permitsMore (c c' : ResolvedConfig) : Prop :=
  (strict (server_fs c') = true -> strict (server_fs c) = true)
  /\ (forall p, fsDenyGlob c' p = true -> fsDenyGlob c p = true)
  /\ (forall p, p ∈ safeModulePaths c -> p ∈ safeModulePaths c')
  /\ (forall uri, In uri (allow (server_fs c)) -> In uri (allow (server_fs c'))).

(* ================================================================== *)
(** ** Paths that a URL carries                                        *)
(* ================================================================== *)

(** The characters [encodeURI] escapes. *)
Definition uriEscaped (c : ascii) : bool :=
  negb (Js.uriReserved c || Js.uriUnescaped c || Ascii.eqb c "#").

(** The bytes of well-formed UTF-8: the strings that stand for a
    JavaScript string without a lone surrogate. *)
Fixpoint wellFormedUtf8 (s : string) : bool :=
  match s with
  | EmptyString => true
  | String c1 r1 =>
      let b1 := Js.code c1 in
      if b1 <? 128 then wellFormedUtf8 r1
      else if Js.between 192 223 b1 then
        match r1 with
        | String c2 r2 => Js.utf8_2 b1 (Js.code c2) && wellFormedUtf8 r2
        | _ => false
        end
      else if Js.between 224 239 b1 then
        match r1 with
        | String c2 (String c3 r3) =>
            Js.utf8_3 b1 (Js.code c2) (Js.code c3) && wellFormedUtf8 r3
        | _ => false
        end
      else if Js.between 240 247 b1 then
        match r1 with
        | String c2 (String c3 (String c4 r4)) =>
            Js.utf8_4 b1 (Js.code c2) (Js.code c3) (Js.code c4) && wellFormedUtf8 r4
        | _ => false
        end
      else false
  end.

(** A character a request URL can hold (no space, no control character)
    that is none of [%], [?], [#] and the backslash. *)
Definition plainChar (c : ascii) : bool :=
  (32 <? Js.code c) && negb (Js.includesChar "%?#\" c).

(** An absolute path of such characters with no [.] or [..] segment. *)
Definition plainPath (p : string) : bool :=
  match p with
  | String "/" q =>
      Url.allChars plainChar q && wellFormedUtf8 q
      && forallb plainSeg (Url.splitSegs q)
  | _ => false
  end.

(** The octets of a string percent-encoded over the set [S], as
    [decodeURI] reads them. *)
Fixpoint encodedTokens (S : ascii -> bool) (s : string) : list Js.token :=
  match s with
  | EmptyString => []
  | String c r =>
      (if S c
       then Js.Esc (Js.code c) (Js.hexDigit (Js.code c / 16)) (Js.hexDigit (Js.code c mod 16))
       else Js.Lit c) :: encodedTokens S r
  end.

(** The characters [decodeURI] keeps escaped. *)
Definition uriPreserved (c : ascii) : bool := Js.uriReserved c || Ascii.eqb c "#".

(** What [S] must do with a character for the encoding to decode back:
    escape it if it is not ASCII, and not escape it if [decodeURI] would
    keep the escape, nor leave a [%] bare. *)
Definition decodable (S : ascii -> bool) (c : ascii) : bool :=
  if 128 <=? Js.code c then S c
  else if S c then negb (uriPreserved c) else negb (Ascii.eqb c "%").

(** A token of the lower-cased string. *)
Definition lowerToken (t : Js.token) : Js.token :=
  match t with
  | Js.Lit c => Js.Lit (Js.lowerChar c)
  | Js.Esc b h1 h2 => Js.Esc b (Js.lowerChar h1) (Js.lowerChar h2)
  end.

(** The characters of a path that [encodeURI] has produced: the stable
    characters and the percent sign of an escape. *)
Definition carriedChar (c : ascii) : bool := stableChar c || Ascii.eqb c "%".

(** A string that holds no separator: one segment of a path. *)
Definition noSeparator (seg : string) : bool :=
  Url.allChars (fun c => negb (Url.isSlash c)) seg.

(* ================================================================== *)
(** * Properties                                                       *)
(* ================================================================== *)

(** ** The access policy engine *)

Section PolicyFacts.
Context `{Imports}.

Lemma some_true_iff {A} (p : A -> bool) (l : list A) :
  some p l = true <-> exists x, In x l /\ p x = true.
Proof. unfold some. apply existsb_exists. Qed.

Lemma some_false_iff {A} (p : A -> bool) (l : list A) :
  some p l = false <-> forall x, In x l -> p x = false.
Proof.
  unfold some. induction l as [|a l IH]; simpl.
  - split; [intros _ x [] | reflexivity].
  - rewrite orb_false_iff, IH. split.
    + intros [Ha Hl] x [<-|Hx]; auto.
    + intros Hall. split; [apply Hall; now left | intros x Hx; apply Hall; now right].
Qed.

Lemma isFileInTargetPath_true (t p : string) :
  isFileInTargetPath t p = true <->
  isSameFilePath t p = true \/ isParentDirectory t p = true.
Proof. unfold isFileInTargetPath. apply orb_true_iff. Qed.

Lemma isFileInTargetPath_false (t p : string) :
  isFileInTargetPath t p = false <->
  isSameFilePath t p = false /\ isParentDirectory t p = false.
Proof. unfold isFileInTargetPath. apply orb_false_iff. Qed.

(** The code follows the specified order, rule by rule. *)
Lemma isFileLoadingAllowed_classify (c : ResolvedConfig) (p : string) :
  classify c p (isFileLoadingAllowed c p).
Proof.
  unfold isFileLoadingAllowed.
  destruct (strict (server_fs c)) eqn:Hs; simpl.
  2: now apply classify_not_strict.
  destruct (fsDenyGlob c p) eqn:Hd.
  1: now apply classify_deny.
  destruct (bool_decide (p ∈ safeModulePaths c)) eqn:Ht.
  - apply bool_decide_eq_true in Ht. now apply classify_trusted.
  - apply bool_decide_eq_false in Ht.
    destruct (some _ (allow (server_fs c))) eqn:Ha.
    + apply some_true_iff in Ha as (entry & Hin & Hp).
      apply isFileInTargetPath_true in Hp.
      now apply classify_allow_root with entry.
    + apply classify_default; auto.
      intros entry Hin. apply isFileInTargetPath_false.
      revert entry Hin. now apply some_false_iff.
Qed.

(** The rules are exclusive: they give one answer. *)
Lemma classify_functional (c : ResolvedConfig) (p : string) (b1 b2 : bool) :
  classify c p b1 -> classify c p b2 -> b1 = b2.
Proof.
  intros H1 H2.
  destruct H1; destruct H2; try reflexivity; try congruence; try contradiction.
  - match goal with
    | Hall : forall e, In e _ -> _ /\ _, Hin : In ?e _ |- _ =>
        destruct (Hall e Hin); intuition congruence
    end.
  - match goal with
    | Hall : forall e, In e _ -> _ /\ _, Hin : In ?e _ |- _ =>
        destruct (Hall e Hin); intuition congruence
    end.
Qed.

(** C1. [isFileLoadingAllowed] evaluates the policy in the fixed order:
    strict mode off allows every path; otherwise a deny match denies;
    otherwise a trusted path is allowed; otherwise a path equal to or
    below an allow root is allowed; otherwise the path is denied.  The
    result is the one the ordered rules of [classify] give, and they give
    no other. *)
Theorem isFileLoadingAllowed_fixed_order (c : ResolvedConfig) (p : string) (b : bool) :
  isFileLoadingAllowed c p = b <-> classify c p b.
Proof.
  split.
  - intros <-. apply isFileLoadingAllowed_classify.
  - intros Hb. symmetry.
    exact (classify_functional c p _ _ Hb (isFileLoadingAllowed_classify c p)).
Qed.

(** C2. In strict mode a path that matches a deny pattern is denied,
    whatever the trusted set and the allow roots hold. *)
Theorem deny_takes_precedence (c : ResolvedConfig) (p : string) :
  strict (server_fs c) = true ->
  fsDenyGlob c p = true ->
  isFileLoadingAllowed c p = false.
Proof.
  intros Hs Hd. unfold isFileLoadingAllowed. now rewrite Hs, Hd.
Qed.

(** C3. [checkLoadingAccess] is [allowed] exactly when the policy engine
    allows the path (in its forward-slash form); when it does not, the
    result is [denied] exactly when the path is readable on the disk and
    [fallback] otherwise. *)
Theorem checkLoadingAccess_three_valued (c : ResolvedConfig) (path : string) :
  (checkLoadingAccess c path = allowed <->
     isFileLoadingAllowed c (slash path) = true)
  /\ (checkLoadingAccess c path = denied <->
        isFileLoadingAllowed c (slash path) = false /\ isFileReadable path = true)
  /\ (checkLoadingAccess c path = fallback <->
        isFileLoadingAllowed c (slash path) = false /\ isFileReadable path = false).
Proof.
  unfold checkLoadingAccess.
  destruct (isFileLoadingAllowed c (slash path)), (isFileReadable path);
    repeat split; intros; try reflexivity; try discriminate;
    intuition discriminate.
Qed.

(** C10. The two call shapes of [isFileServingAllowed] agree: both give
    [true] when strict mode is off, and the answer of
    [isFileLoadingAllowed] on the path derived from the URL otherwise. *)
Theorem isFileServingAllowed_overloads_agree (server : ViteDevServer) (url : string) :
  isFileServingAllowed (IsConfig (config server)) (IsString url)
    = isFileServingAllowed (IsUrl url) (IsServer server)
  /\ isFileServingAllowed (IsUrl url) (IsServer server)
     = Some (if strict (server_fs (config server))
             then isFileLoadingAllowed (config server) (fsPathFromUrl url)
             else true).
Proof.
  unfold isFileServingAllowed; simpl.
  destruct (strict (server_fs (config server))); simpl; split; reflexivity.
Qed.

End PolicyFacts.

(** The deny rule on a path that is trusted and lies below an allow root. *)
Lemma deny_takes_precedence_witness :
  strict (server_fs Example.project) = true
  /\ fsDenyGlob Example.project "/proj/.env" = true
  /\ bool_decide ("/proj/.env" ∈ safeModulePaths Example.project) = true
  /\ some (fun uri => isFileInTargetPath (H := Example.host) uri "/proj/.env")
       (allow (server_fs Example.project)) = true
  /\ isFileLoadingAllowed (H := Example.host) Example.project "/proj/.env" = false.
Proof.
  split; [reflexivity|]. split; [reflexivity|].
  split; [reflexivity|]. split; [reflexivity|].
  apply (deny_takes_precedence (H := Example.host) Example.project "/proj/.env");
    reflexivity.
Defined.

(* ================================================================== *)
(** ** Strings                                                         *)
(* ================================================================== *)

Local Arguments String.append !s1 s2 : simpl nomatch.

Lemma sapp_assoc (a b c : string) : (a ++ b) ++ c = a ++ (b ++ c).
Proof. induction a as [|x a IH]; simpl; [reflexivity | now rewrite IH]. Qed.

Lemma sapp_nil_r (a : string) : a ++ EmptyString = a.
Proof. induction a as [|x a IH]; simpl; [reflexivity | now rewrite IH]. Qed.

Lemma replaceAllChar_app (a b : string) (c : ascii) (r : string) :
  Js.replaceAllChar (a ++ b) c r = Js.replaceAllChar a c r ++ Js.replaceAllChar b c r.
Proof.
  induction a as [|x a IH]; simpl; [reflexivity|].
  now rewrite IH, sapp_assoc.
Qed.

Lemma escapeHtml_app (a b : string) :
  escapeHtml (a ++ b) = escapeHtml a ++ escapeHtml b.
Proof.
  induction a as [|x a IH]; simpl; [reflexivity|].
  now rewrite IH, sapp_assoc.
Qed.

Lemma inHtml_app (a b : string) : inHtml (a ++ b) = inHtml a ++ inHtml b.
Proof. unfold inHtml. now rewrite escapeHtml_app, replaceAllChar_app. Qed.

Lemma inHtml_cons (c : ascii) (s : string) :
  inHtml (String c s) = inHtml (Js.str c) ++ inHtml s.
Proof. exact (inHtml_app (Js.str c) s). Qed.

(** The lines of the allow list, each rendered on its own. *)
Lemma inHtml_join (l : list string) :
  inHtml (Js.join nl (map (fun i => "- " ++ i) l))
  = Js.join "<br/>" (map (fun i => "- " ++ inHtml i) l).
Proof.
  induction l as [|x l IH]; [reflexivity|].
  destruct l as [|y l].
  - change (inHtml ("- " ++ x) = "- " ++ inHtml x).
    now rewrite inHtml_app.
  - change (inHtml (("- " ++ x) ++ nl ++ Js.join nl (map (fun i => "- " ++ i) (y :: l)))
            = ("- " ++ inHtml x) ++ "<br/>"
              ++ Js.join "<br/>" (map (fun i => "- " ++ inHtml i) (y :: l))).
    rewrite <- IH, !inHtml_app. reflexivity.
Qed.

(** *** No [<] that opens a script tag *)

Lemma afterLt_app (r b : string) : afterLt r = true -> afterLt (r ++ b) = true.
Proof.
  destruct r as [|c [|d r]]; simpl; try discriminate.
  - destruct (Ascii.eqb_spec c "s") as [->|Hc]; [discriminate|].
    intros _. destruct b; simpl.
    + destruct c as [[] [] [] [] [] [] [] []]; reflexivity || now elim Hc.
    + destruct c as [[] [] [] [] [] [] [] []]; reflexivity || now elim Hc.
  - destruct c as [[] [] [] [] [] [] [] []]; auto.
Qed.

Lemma noScript_app (a b : string) :
  noScript a = true -> noScript b = true -> noScript (a ++ b) = true.
Proof.
  intros Ha Hb. induction a as [|c a IH]; simpl in *; [assumption|].
  apply andb_true_iff in Ha as [Hc Ha].
  rewrite (IH Ha), andb_true_r.
  destruct (Ascii.eqb c "<"); [now apply afterLt_app | reflexivity].
Qed.

Lemma noScript_suffix (a b : string) : noScript (a ++ b) = true -> noScript b = true.
Proof.
  induction a as [|c a IH]; simpl; [auto|].
  intros Hab. apply andb_true_iff in Hab as [_ Hab]. auto.
Qed.

Lemma noScript_sound (s a b : string) : noScript s = true -> s <> a ++ "<sc" ++ b.
Proof.
  intros Hs ->. apply noScript_suffix in Hs. simpl in Hs. discriminate.
Qed.

Lemma noScript_char (c : ascii) : noScript (inHtml (Js.str c)) = true.
Proof. destruct c as [[] [] [] [] [] [] [] []]; reflexivity. Qed.

Lemma noScript_inHtml (s : string) : noScript (inHtml s) = true.
Proof.
  induction s as [|c s IH]; [reflexivity|].
  rewrite inHtml_cons. apply noScript_app; [apply noScript_char | assumption].
Qed.

(** *** No markup character survives [escapeHtml] *)

Lemma allChars_app (p : ascii -> bool) (a b : string) :
  Url.allChars p (a ++ b) = Url.allChars p a && Url.allChars p b.
Proof.
  induction a as [|c a IH]; simpl; [reflexivity|].
  now rewrite IH, andb_assoc.
Qed.

Lemma escapeHtml_no_markup (s : string) : Url.allChars notMarkup (escapeHtml s) = true.
Proof.
  induction s as [|c s IH]; [reflexivity|].
  simpl. rewrite allChars_app, IH, andb_true_r.
  destruct c as [[] [] [] [] [] [] [] []]; reflexivity.
Qed.

(* ================================================================== *)
(** ** The denial response                                             *)
(* ================================================================== *)

Lemma bodyOf_write (r : ServerResponse) (w : World) (chunk : string) :
  written r = (written (res w) ++ [chunk])%list ->
  bodyOf r = bodyOf (res w) ++ chunk.
Proof.
  unfold bodyOf. intros ->.
  induction (written (res w)) as [|x l IH]; simpl.
  - now rewrite sapp_nil_r.
  - now rewrite IH, sapp_assoc.
Qed.

Lemma render_inHtml (msg : string) :
  renderRestrictedErrorHTML msg = html_head ++ inHtml msg ++ html_tail.
Proof. reflexivity. Qed.

Lemma renderRestrictedErrorHTML_noScript (msg : string) :
  noScript (renderRestrictedErrorHTML msg) = true.
Proof.
  unfold renderRestrictedErrorHTML.
  apply noScript_app; [reflexivity|].
  apply noScript_app; [apply (noScript_inHtml msg) | reflexivity].
Qed.

(** C6. The denial response has status 403 and its body is the page
    around the escaped message: the denied path and the allow roots, one
    to a line, stand in it in their HTML-escaped form only.  No markup
    character of the interpolated text survives the escaping, and the
    page holds no [<script>], whatever the path and the roots are. *)
Theorem denial_response_is_escaped (id : string) (server : ViteDevServer) (w : World) :
  let w' := fst (respondWithAccessDenied id server w) in
  let page := renderRestrictedErrorHTML (urlMessage id ++ nl ++ hintMessage server) in
  statusCode (res w') = 403
  /\ written (res w') = (written (res w) ++ [page])%list
  /\ bodyOf (res w') = bodyOf (res w) ++ page
  /\ ended (res w') = true
  /\ page = html_head
            ++ "The request id &quot;" ++ inHtml id
            ++ "&quot; is outside of Vite serving allow list.<br/><br/>"
            ++ Js.join "<br/>"
                 (map (fun i => "- " ++ inHtml i) (allow (server_fs (config server))))
            ++ "<br/><br/>Refer to docs https://vite.dev/config/server-options.html#server-fs-allow for configurations and more details."
            ++ html_tail
  /\ (forall s, Url.allChars notMarkup (escapeHtml s) = true)
  /\ (forall a b, page <> a ++ "<script>" ++ b).
Proof.
  cbv zeta. repeat split; try reflexivity.
  - now apply bodyOf_write.
  - rewrite render_inHtml. unfold urlMessage, hintMessage.
    rewrite !inHtml_app, inHtml_join, !sapp_assoc.
    reflexivity.
  - apply escapeHtml_no_markup.
  - intros a b.
    change ("<script>" ++ b) with ("<sc" ++ ("ript>" ++ b)).
    apply noScript_sound, renderRestrictedErrorHTML_noScript.
Qed.

(* ================================================================== *)
(** ** The serving stages                                              *)
(* ================================================================== *)

Lemma endsWith_slash_lastChar (s : string) :
  Js.endsWith s "/" =
  match Js.lastChar s with
  | Some c => Ascii.eqb c "/"
  | None => false
  end.
Proof.
  unfold Js.endsWith. induction s as [|c r IH]; [reflexivity|].
  destruct r as [|d r].
  - simpl. destruct (Ascii.eqb c "/"); reflexivity.
  - change (Js.lastChar (String c (String d r))) with (Js.lastChar (String d r)).
    rewrite <- IH. simpl String.length.
    replace (S (S (String.length r)) - 1)%nat with (S (String.length r - 0)) by lia.
    replace (S (String.length r) - 1)%nat with (String.length r - 0)%nat by lia.
    reflexivity.
Qed.

Section StageFacts.
Context `{Imports}.

Lemma respondWithAccessDenied_returns (id : string) (server : ViteDevServer) (w : World) :
  snd (respondWithAccessDenied id server w) = Normal tt.
Proof. reflexivity. Qed.

Lemma respondWithAccessDenied_status (id : string) (server : ViteDevServer) (w : World) :
  statusCode (res (fst (respondWithAccessDenied id server w))) = 403.
Proof. reflexivity. Qed.

Lemma isDeniedError_iff (e : JsError) :
  isDeniedError e = true <-> err_code e = Some ERR_DENIED_FILE.
Proof.
  unfold isDeniedError. destruct (err_code e) as [c|].
  - rewrite String.eqb_eq. split; congruence.
  - split; discriminate.
Qed.

(** What the guarded call makes of a fault of the collaborator. *)
Lemma serveGuarded_throw (serve : Handler) (server : ViteDevServer)
    (u : string) (w w' : World) (e : JsError) :
  serve u w = (w', Throw e) ->
  serveGuarded serve server u w =
    if isDeniedError e
    then (fst (respondWithAccessDenied (pathOf e) server w'), Normal AccessDenied)
    else (w', Throw e).
Proof.
  intros Hs. unfold serveGuarded, catch, mbind. rewrite Hs.
  destruct (isDeniedError e); reflexivity.
Qed.

Lemma serveGuarded_normal (serve : Handler) (server : ViteDevServer)
    (u : string) (w w' : World) (s : Step) :
  serve u w = (w', Normal s) ->
  serveGuarded serve server u w = (w', Normal (Delegated u s)).
Proof.
  intros Hs. unfold serveGuarded, catch, mbind. now rewrite Hs.
Qed.

Lemma serveGuarded_not_declined (serve : Handler) (server : ViteDevServer)
    (u : string) (w : World) :
  snd (serveGuarded serve server u w) <> Normal Declined.
Proof.
  destruct (serve u w) as [w' [s|e]] eqn:Hs.
  - rewrite (serveGuarded_normal _ _ _ _ _ _ Hs). discriminate.
  - rewrite (serveGuarded_throw _ _ _ _ _ _ Hs).
    destruct (isDeniedError e); discriminate.
Qed.

(** A request it does not decline the root stage resolves and hands to
    the guarded call. *)
Lemma static_stage_proceeds (dir : string) (serve : Handler) (server : ViteDevServer)
    (req_url : string) (w : World) (url : Url.URL) (pathname : string) :
  staticDeclines req_url = false ->
  newURL req_url = Normal url ->
  Js.decodeURI (Url.pathname url) = Normal pathname ->
  viteServeStaticMiddleware dir serve server req_url w =
    serveGuarded serve server
      (newUrl (resolveStatic dir (resolve_alias (config server)) req_url url pathname)) w.
Proof.
  intros Hg Hu Hp. unfold viteServeStaticMiddleware, mbind, lift.
  now rewrite Hg, Hu, Hp.
Qed.

Lemma static_stage_decode_failure (dir : string) (serve : Handler) (server : ViteDevServer)
    (req_url : string) (w : World) (url : Url.URL) (e : JsError) :
  staticDeclines req_url = false ->
  newURL req_url = Normal url ->
  Js.decodeURI (Url.pathname url) = Throw e ->
  viteServeStaticMiddleware dir serve server req_url w = (w, Throw e).
Proof.
  intros Hg Hu Hp. unfold viteServeStaticMiddleware, mbind, lift.
  now rewrite Hg, Hu, Hp.
Qed.

Lemma rawfs_stage_decode_failure (serve : Handler) (server : ViteDevServer)
    (req_url : string) (w : World) (url : Url.URL) (e : JsError) :
  Js.startsWith req_url FS_PREFIX = true ->
  newURL req_url = Normal url ->
  Js.decodeURI (Url.pathname url) = Throw e ->
  viteServeRawFsMiddleware serve server req_url w = (w, Throw e).
Proof.
  intros Hg Hu Hp. unfold viteServeRawFsMiddleware, rawFsUrl, mbind, lift.
  rewrite Hg, Hu. cbn [bind]. now rewrite Hp.
Qed.

(** The public stage keeps the string where it cannot be decoded. *)
Lemma toFilePath_decode_failure (url : string) (e : JsError) :
  Js.decodeURI (cleanUrl url) = Throw e ->
  toFilePath url = normalizePath (cleanUrl url).
Proof.
  intros He. unfold toFilePath. rewrite He.
  now destruct (Js.includesChar (cleanUrl url) "%").
Qed.

Lemma rawfs_stage_proceeds (serve : Handler) (server : ViteDevServer)
    (req_url u : string) (w : World) :
  Js.startsWith req_url FS_PREFIX = true ->
  rawFsUrl req_url = Normal u ->
  viteServeRawFsMiddleware serve server req_url w = serveGuarded serve server u w.
Proof.
  intros Hg Hu. unfold viteServeRawFsMiddleware, mbind, lift.
  now rewrite Hg, Hu.
Qed.

(** C7. In the root and the raw-fs stage a fault thrown by the
    collaborator is handled exactly when its [code] is [ERR_DENIED_FILE]:
    the 403 response is then written for the path the fault carries; every
    other fault leaves the stage as it was thrown.  The predicate given
    to the collaborator throws that fault, with the offending path, on a
    [denied] decision and on no other. *)
Theorem only_policy_denial_is_handled
    (dir : string) (serve : Handler) (server : ViteDevServer)
    (req_url : string) (w w' : World) (e : JsError) :
  (* the predicate *)
  (forall cfg getHeaders filePath,
     exists f, shouldServe (sirvOptions cfg getHeaders false) = Some f
       /\ f filePath =
          match checkLoadingAccess cfg filePath with
          | denied => Throw (mkError "Error" "denied access"
                               (Some ERR_DENIED_FILE) (Some filePath))
          | allowed => Normal true
          | fallback => Normal false
          end)
  (* the root stage *)
  /\ (forall url pathname,
        staticDeclines req_url = false ->
        newURL req_url = Normal url ->
        Js.decodeURI (Url.pathname url) = Normal pathname ->
        serve (newUrl (resolveStatic dir (resolve_alias (config server))
                         req_url url pathname)) w = (w', Throw e) ->
        (err_code e = Some ERR_DENIED_FILE ->
           viteServeStaticMiddleware dir serve server req_url w
             = (fst (respondWithAccessDenied (pathOf e) server w'), Normal AccessDenied)
           /\ statusCode (res (fst (viteServeStaticMiddleware dir serve server req_url w)))
              = 403)
        /\ (err_code e <> Some ERR_DENIED_FILE ->
              viteServeStaticMiddleware dir serve server req_url w = (w', Throw e)))
  (* the raw-fs stage *)
  /\ (forall u,
        Js.startsWith req_url FS_PREFIX = true ->
        rawFsUrl req_url = Normal u ->
        serve u w = (w', Throw e) ->
        (err_code e = Some ERR_DENIED_FILE ->
           viteServeRawFsMiddleware serve server req_url w
             = (fst (respondWithAccessDenied (pathOf e) server w'), Normal AccessDenied)
           /\ statusCode (res (fst (viteServeRawFsMiddleware serve server req_url w)))
              = 403)
        /\ (err_code e <> Some ERR_DENIED_FILE ->
              viteServeRawFsMiddleware serve server req_url w = (w', Throw e))).
Proof.
  split; [|split].
  - intros cfg getHeaders filePath. eexists. split; [reflexivity|].
    simpl. destruct (checkLoadingAccess cfg filePath); reflexivity.
  - intros url pathname Hg Hu Hp Hs.
    rewrite (static_stage_proceeds _ _ _ _ _ _ _ Hg Hu Hp).
    rewrite (serveGuarded_throw _ _ _ _ _ _ Hs).
    split; intros Hc.
    + apply isDeniedError_iff in Hc. rewrite Hc. split; reflexivity.
    + destruct (isDeniedError e) eqn:Hd; [|reflexivity].
      apply isDeniedError_iff in Hd. contradiction.
  - intros u Hg Hu Hs.
    rewrite (rawfs_stage_proceeds _ _ _ _ _ Hg Hu).
    rewrite (serveGuarded_throw _ _ _ _ _ _ Hs).
    split; intros Hc.
    + apply isDeniedError_iff in Hc. rewrite Hc. split; reflexivity.
    + destruct (isDeniedError e) eqn:Hd; [|reflexivity].
      apply isDeniedError_iff in Hd. contradiction.
Qed.

(** C8, as the code has it.  The root stage declines, leaving the
    response untouched and whatever the collaborator is, exactly for the
    request URLs whose cleaned path ends in [/] or has the extension
    [.html], that are internal requests, or that begin with [//]. *)
Theorem root_stage_declines_exactly
    (dir : string) (serve : Handler) (server : ViteDevServer)
    (req_url : string) (w : World) :
  viteServeStaticMiddleware dir serve server req_url w = (w, Normal Declined)
  <-> (Js.endsWith (cleanUrl req_url) "/" = true
       \/ path_extname (cleanUrl req_url) = ".html"
       \/ isInternalRequest req_url = true
       \/ Js.startsWith req_url "//" = true).
Proof.
  assert (Hdecl : staticDeclines req_url = true <->
                  (Js.endsWith (cleanUrl req_url) "/" = true
                   \/ path_extname (cleanUrl req_url) = ".html"
                   \/ isInternalRequest req_url = true
                   \/ Js.startsWith req_url "//" = true)).
  { unfold staticDeclines. rewrite !orb_true_iff, String.eqb_eq. tauto. }
  rewrite <- Hdecl. split.
  - intros Hd. destruct (staticDeclines req_url) eqn:Hg; [reflexivity|]. exfalso.
    unfold viteServeStaticMiddleware, mbind, lift in Hd. rewrite Hg in Hd.
    destruct (newURL req_url) as [url|e1]; [|discriminate].
    destruct (Js.decodeURI (Url.pathname url)) as [p|e2]; [|discriminate].
    eapply serveGuarded_not_declined. rewrite Hd. reflexivity.
  - intros Hg. unfold viteServeStaticMiddleware. now rewrite Hg.
Qed.

End StageFacts.

(** The three cases of the theorem on the example project: a denied file
    of the root stage, a denied file of the raw-fs stage, and a fault of
    another kind. *)
Lemma only_policy_denial_is_handled_witness :
  let server := mkServer Example.project in
  let e1 := mkError "Error" "denied access" (Some ERR_DENIED_FILE) (Some "/proj/.env") in
  let e2 := mkError "Error" "denied access" (Some ERR_DENIED_FILE) (Some "/etc/passwd") in
  let e3 := mkError "Error" "EACCES: permission denied" (Some "EACCES") None in
  (Example.serveRoot "/.env" Example.fresh = (Example.fresh, Throw e1)
   /\ viteServeStaticMiddleware (H := Example.host) "/proj" Example.serveRoot server
        "/.env" Example.fresh
      = (fst (respondWithAccessDenied "/proj/.env" server Example.fresh),
         Normal AccessDenied))
  /\ (Example.serveFromRoot "/etc/passwd" Example.fresh = (Example.fresh, Throw e2)
      /\ viteServeRawFsMiddleware (H := Example.host) Example.serveFromRoot server
           "/@fs/etc/passwd" Example.fresh
         = (fst (respondWithAccessDenied "/etc/passwd" server Example.fresh),
            Normal AccessDenied))
  /\ viteServeStaticMiddleware (H := Example.host) "/proj" Example.failing server
       "/src/app.ts" Example.fresh
     = (Example.fresh, Throw e3).
Proof.
  intros server e1 e2 e3.
  split; [|split].
  - split; [reflexivity|].
    destruct (only_policy_denial_is_handled (H := Example.host) "/proj" Example.serveRoot
                server "/.env" Example.fresh Example.fresh e1) as (_ & Hroot & _).
    destruct (Hroot (Url.mkURL [".env"] None None) "/.env"
                eq_refl eq_refl eq_refl eq_refl) as [Hden _].
    exact (proj1 (Hden eq_refl)).
  - split; [reflexivity|].
    destruct (only_policy_denial_is_handled (H := Example.host) "/" Example.serveFromRoot
                server "/@fs/etc/passwd" Example.fresh Example.fresh e2) as (_ & _ & Hraw).
    destruct (Hraw "/etc/passwd" eq_refl eq_refl eq_refl) as [Hden _].
    exact (proj1 (Hden eq_refl)).
  - destruct (only_policy_denial_is_handled (H := Example.host) "/proj" Example.failing
                server "/src/app.ts" Example.fresh Example.fresh e3) as (_ & Hroot & _).
    destruct (Hroot (Url.mkURL ["src"; "app.ts"] None None) "/src/app.ts"
                eq_refl eq_refl eq_refl eq_refl) as [_ Hother].
    apply Hother. discriminate.
Defined.

(** C8, as it is stated, fails: an import request is not declined by the
    root stage; the collaborator gets it. *)
Lemma import_request_reaches_collaborator :
  isImportRequest (Imports := Example.host) "/foo.js?import" = true
  /\ snd (serveStaticMiddleware (H := Example.host) (Example.sirv Example.disk)
            (mkServer Example.project) "/foo.js?import" Example.fresh)
     = Normal (Delegated "/foo.js?import" Responded).
Proof. split; reflexivity. Qed.

(** C4.  A malformed escape in the request URL: the public stage falls
    back to the string as it is, but the root stage and the raw-fs stage
    throw the [URIError] of [decodeURI]. *)
Theorem malformed_escape_is_thrown :
  toFilePath (H := Example.host) "/%" = "/%"
  /\ serveStaticMiddleware (H := Example.host) (Example.sirv Example.disk)
       (mkServer Example.project) "/%" Example.fresh
     = (Example.fresh, Throw URIError)
  /\ serveRawFsMiddleware (H := Example.host) (Example.sirv Example.disk)
       (mkServer Example.project) "/@fs/%" Example.fresh
     = (Example.fresh, Throw URIError).
Proof. repeat split; reflexivity. Qed.

(* ================================================================== *)
(** ** Alias rewriting                                                 *)
(* ================================================================== *)

Lemma truthy_iff (s : string) : Js.truthy s = true <-> s <> EmptyString.
Proof. destruct s; simpl; split; congruence. Qed.

Lemma slice_empty (n : nat) : Js.slice EmptyString n = EmptyString.
Proof. destruct n; reflexivity. Qed.

Section AliasFacts.
Context `{Imports}.

(** The loop stops at the first rule that matches. *)
Lemma applyAlias_first_match (pre post : list Alias) (a : Alias) (pathname : string) :
  (forall b, In b pre -> aliasMatches b pathname = false) ->
  aliasMatches a pathname = true ->
  applyAlias (pre ++ a :: post)%list pathname = Some (aliasReplace a pathname).
Proof.
  intros Hpre Ha. induction pre as [|b pre IH]; simpl.
  - now rewrite Ha.
  - rewrite (Hpre b (or_introl eq_refl)). apply IH.
    intros b' Hb'. apply Hpre. now right.
Qed.

(** The file path of a pathname that stands as the resolved one. *)
Lemma fileUrl_rootJoin (dir resolved : string) :
  (let fileUrl := path_resolve dir (removeLeadingSlash resolved) in
   if Js.endsWith resolved "/"
      && negb (match Js.lastChar fileUrl with
               | Some c => Ascii.eqb c "/"
               | None => false
               end)
   then withTrailingSlash fileUrl
   else fileUrl)
  = rootJoin dir resolved.
Proof.
  unfold rootJoin. cbv zeta.
  now rewrite (endsWith_slash_lastChar (path_resolve dir (removeLeadingSlash resolved))).
Qed.

(** C9, as the code has it.  The first rule that matches is the one
    applied, whatever rules follow it.  When the rewritten path starts
    with the served root as a directory prefix and something is left
    after it, the prefix is stripped and what is left is resolved against
    the root as a path that was not rewritten is.  With no alias the file
    path is the direct join of the root and the decoded pathname, and the
    request URL stays as it is. *)
Theorem alias_rewriting_resolution
    (dir req_url : string) (url : Url.URL) (pathname : string) :
  (forall pre a post,
     (forall b, In b pre -> aliasMatches b pathname = false) ->
     aliasMatches a pathname = true ->
     applyAlias (pre ++ a :: post)%list pathname = Some (aliasReplace a pathname))
  /\ (forall aliases rewritten,
        applyAlias aliases pathname = Some rewritten ->
        Js.startsWith rewritten (withTrailingSlash dir) = true ->
        Js.slice rewritten (String.length dir) <> EmptyString ->
        let r := resolveStatic dir aliases req_url url pathname in
        redirectedPathname r = Some (Js.slice rewritten (String.length dir))
        /\ resolvedPathname r = Js.slice rewritten (String.length dir)
        /\ fileUrl r = rootJoin dir (Js.slice rewritten (String.length dir)))
  /\ (let r := resolveStatic dir [] req_url url pathname in
      redirectedPathname r = None
      /\ resolvedPathname r = pathname
      /\ fileUrl r = rootJoin dir pathname
      /\ newUrl r = req_url).
Proof.
  split; [|split].
  - intros pre a post. apply applyAlias_first_match.
  - intros aliases rewritten Ha Hstart Hrest r.
    assert (Hrw : Js.truthy rewritten = true).
    { apply truthy_iff. intros ->. now rewrite slice_empty in Hrest. }
    apply truthy_iff in Hrest.
    subst r. unfold resolveStatic. rewrite Ha. cbn [defined_truthy].
    rewrite Hrw, Hstart. cbn [or_else]. rewrite Hrest.
    cbn [redirectedPathname resolvedPathname fileUrl].
    repeat split. apply fileUrl_rootJoin.
  - unfold resolveStatic. cbn [applyAlias defined_truthy or_else].
    cbn [redirectedPathname resolvedPathname fileUrl newUrl].
    repeat split. apply fileUrl_rootJoin.
Qed.

End AliasFacts.

(** Two rules match [/src/app.ts]; the first one rewrites it into the
    root, and the file path is that of [/lib/app.ts]. *)
Lemma alias_rewriting_resolution_witness :
  let first := mkAlias (FindString "/src") "/proj/lib" in
  let second := mkAlias (FindString "/src/app") "/other" in
  let never := mkAlias (FindString "/assets") "/static" in
  let url := Url.mkURL ["src"; "app.ts"] None None in
  let r := resolveStatic (H := Example.host) "/proj" [never; first; second]
             "/src/app.ts" url "/src/app.ts" in
  applyAlias [never; first; second] "/src/app.ts"
    = Some "/proj/lib/app.ts"
  /\ resolvedPathname r = "/lib/app.ts"
  /\ fileUrl r = rootJoin (H := Example.host) "/proj" "/lib/app.ts"
  /\ fileUrl r = "/proj/lib/app.ts"
  /\ newUrl r = "/lib/app.ts".
Proof.
  intros first second never url r.
  destruct (alias_rewriting_resolution (H := Example.host) "/proj" "/src/app.ts" url
              "/src/app.ts") as (Hfirst & Hstrip & _).
  assert (Ha : applyAlias [never; first; second] "/src/app.ts"
               = Some "/proj/lib/app.ts").
  { apply (Hfirst [never] first [second]); [|reflexivity].
    intros b [<-|[]]. reflexivity. }
  split; [exact Ha|].
  destruct (Hstrip [never; first; second] "/proj/lib/app.ts" Ha eq_refl)
    as (_ & Hres & Hfile); [discriminate|].
  split; [exact Hres|]. split; [exact Hfile|]. split; reflexivity.
Defined.

(** C9, as it is stated, fails where nothing is left after the prefix:
    the project is served from [/] and the rule rewrites [/a] into [/];
    the rewritten path starts with the root, but the path resolved is
    [/a], not the remainder. *)
Lemma empty_remainder_is_not_resolved :
  let url := Url.mkURL ["a"] None None in
  let r := resolveStatic (H := Example.host) "/" (resolve_alias Example.rootProject)
             "/a" url "/a" in
  applyAlias (resolve_alias Example.rootProject) "/a" = Some "/"
  /\ Js.startsWith "/" (withTrailingSlash (Imports := Example.host) "/") = true
  /\ Js.slice "/" (String.length "/") = EmptyString
  /\ fileUrl r = "/a"
  /\ rootJoin (H := Example.host) "/" (Js.slice "/" (String.length "/")) = "/"
  /\ fileUrl r <> rootJoin (H := Example.host) "/" (Js.slice "/" (String.length "/"))
  /\ newUrl r = "/a".
Proof. repeat split; try reflexivity. discriminate. Qed.

(* ================================================================== *)
(** ** URLs of stable characters                                       *)
(* ================================================================== *)

Lemma stableChar_facts (c : ascii) :
  stableChar c = true ->
  (32 <? Js.code c) = true
  /\ Url.pathSet c = false
  /\ Url.isSlash c = Ascii.eqb c "/"
  /\ Ascii.eqb c "%" = false
  /\ Ascii.eqb c "#" = false
  /\ Ascii.eqb c "?" = false
  /\ (Js.uriReserved c || Js.uriUnescaped c || Ascii.eqb c "#") = true
  /\ Url.isTabOrNewline c = false.
Proof.
  destruct c as [[] [] [] [] [] [] [] []]; vm_compute; intros Hc;
    try discriminate Hc; repeat split.
Qed.

Lemma allChars_weaken (P Q : ascii -> bool) (s : string) :
  (forall c, P c = true -> Q c = true) ->
  Url.allChars P s = true -> Url.allChars Q s = true.
Proof.
  intros HPQ. induction s as [|c s IH]; simpl; [reflexivity|].
  intros Hs. apply andb_true_iff in Hs as [Hc Hs].
  now rewrite (HPQ c Hc), (IH Hs).
Qed.

Lemma splitSegs_nonempty (s : string) : Url.splitSegs s <> [].
Proof.
  destruct s as [|c s]; simpl; [discriminate|].
  destruct (Url.isSlash c); [discriminate|].
  destruct (Url.splitSegs s); discriminate.
Qed.

Lemma cut_absent (s : string) (c : ascii) :
  Url.allChars (fun d => negb (Ascii.eqb d c)) s = true ->
  Url.cut s c = (s, None).
Proof.
  induction s as [|d s IH]; simpl; [reflexivity|].
  intros Hs. apply andb_true_iff in Hs as [Hd Hs].
  apply negb_true_iff in Hd. now rewrite Hd, (IH Hs).
Qed.

Lemma percentEncode_stable (s : string) :
  Url.allChars stableChar s = true -> Url.percentEncode Url.pathSet s = s.
Proof.
  induction s as [|c s IH]; simpl; [reflexivity|].
  intros Hs. apply andb_true_iff in Hs as [Hc Hs].
  destruct (stableChar_facts c Hc) as (_ & Hp & _).
  now rewrite Hp, (IH Hs).
Qed.

Lemma splitSegs_stable (s : string) :
  Url.allChars stableChar s = true ->
  Forall (fun seg => Url.allChars stableChar seg = true) (Url.splitSegs s).
Proof.
  induction s as [|c s IH]; simpl.
  - intros _. now constructor.
  - intros Hs. apply andb_true_iff in Hs as [Hc Hs]. specialize (IH Hs).
    destruct (Url.isSlash c).
    + now constructor.
    + destruct (Url.splitSegs s) as [|h t]; inversion IH; subst.
      * constructor; [simpl; now rewrite Hc | constructor].
      * constructor; [simpl|assumption].
        apply andb_true_iff. now split.
Qed.

Lemma map_percentEncode_stable (s : string) :
  Url.allChars stableChar s = true ->
  map (Url.percentEncode Url.pathSet) (Url.splitSegs s) = Url.splitSegs s.
Proof.
  intros Hs. apply splitSegs_stable in Hs.
  induction Hs as [|seg segs Hseg _ IH]; simpl; [reflexivity|].
  now rewrite (percentEncode_stable seg Hseg), IH.
Qed.

Lemma pathState_plain (segs acc : list string) :
  segs <> [] ->
  forallb plainSeg segs = true ->
  Url.pathState segs acc = (rev acc ++ segs)%list.
Proof.
  revert acc. induction segs as [|seg segs IH]; intros acc Hne Hp; [contradiction|].
  simpl in Hp. apply andb_true_iff in Hp as [Hseg Hp].
  unfold plainSeg in Hseg. apply andb_true_iff in Hseg as [H1 H2].
  apply negb_true_iff in H1, H2.
  destruct segs as [|s2 rest].
  - simpl. now rewrite H1, H2.
  - change (Url.pathState (seg :: s2 :: rest) acc)
      with (if Url.isDoubleDot seg then Url.pathState (s2 :: rest) (tl acc)
            else if Url.isSingleDot seg then Url.pathState (s2 :: rest) acc
            else Url.pathState (s2 :: rest) (seg :: acc)).
    rewrite H1, H2, IH; [|discriminate|assumption].
    simpl. now rewrite <- app_assoc.
Qed.

Lemma serializePath_splitSegs (s : string) :
  Url.allChars stableChar s = true ->
  Url.serializePath (Url.splitSegs s) = String "/" s.
Proof.
  induction s as [|c s IH]; [reflexivity|].
  intros Hs. simpl in Hs. apply andb_true_iff in Hs as [Hc Hs]. specialize (IH Hs).
  destruct (stableChar_facts c Hc) as (_ & _ & Hslash & _).
  simpl. rewrite Hslash.
  destruct (Ascii.eqb_spec c "/") as [->|Hne].
  - simpl. now rewrite IH.
  - destruct (Url.splitSegs s) as [|h t] eqn:Hsplit.
    + now elim (splitSegs_nonempty s).
    + simpl in *. injection IH as IH. now rewrite IH.
Qed.

(** Parsing a path of stable characters without dot segments keeps it. *)
Lemma parsePath_stable (t : string) :
  Url.allChars stableChar t = true ->
  forallb plainSeg (Url.splitSegs t) = true ->
  Url.parsePath t = Url.splitSegs t
  /\ Url.serializePath (Url.parsePath t) = String "/" t.
Proof.
  intros Hs Hp. unfold Url.parsePath.
  rewrite (map_percentEncode_stable t Hs).
  rewrite (pathState_plain _ [] (splitSegs_nonempty t) Hp). simpl.
  split; [reflexivity | now apply serializePath_splitSegs].
Qed.

Lemma decodeTokens_plain (preserve : ascii -> bool) (s : string) :
  Url.allChars (fun c => negb (Ascii.eqb c "%")) s = true ->
  exists ts, Js.tokens s = Some ts /\ Js.decodeTokens preserve ts = Some s.
Proof.
  induction s as [|c s IH]; simpl.
  - intros _. now exists [].
  - intros Hs. apply andb_true_iff in Hs as [Hc Hs].
    apply negb_true_iff in Hc. rewrite Hc.
    destruct (IH Hs) as (ts & Ht & Hd).
    exists (Js.Lit c :: ts). rewrite Ht. simpl. now rewrite Hd.
Qed.

Lemma decodeURI_plain (s : string) :
  Url.allChars (fun c => negb (Ascii.eqb c "%")) s = true ->
  Js.decodeURI s = Normal s.
Proof.
  intros Hs. unfold Js.decodeURI.
  destruct (decodeTokens_plain (fun c => Js.uriReserved c || Ascii.eqb c "#") s Hs)
    as (ts & Ht & Hd).
  now rewrite Ht, Hd.
Qed.

Lemma encodeURI_stable (s : string) :
  Url.allChars stableChar s = true -> Js.encodeURI s = s.
Proof.
  induction s as [|c s IH]; simpl; [reflexivity|].
  intros Hs. apply andb_true_iff in Hs as [Hc Hs].
  destruct (stableChar_facts c Hc) as (_ & _ & _ & _ & _ & _ & He & _).
  now rewrite He, (IH Hs).
Qed.

Lemma removeChars_stable (s : string) :
  Url.allChars stableChar s = true -> Url.removeChars Url.isTabOrNewline s = s.
Proof.
  induction s as [|c s IH]; simpl; [reflexivity|].
  intros Hs. apply andb_true_iff in Hs as [Hc Hs].
  destruct (stableChar_facts c Hc) as (_ & _ & _ & _ & _ & _ & _ & Ht).
  now rewrite Ht, (IH Hs).
Qed.

Lemma allChars_dropLead (P : ascii -> bool) (v : string) :
  Url.allChars P v = true -> Url.allChars P (dropLead v) = true.
Proof.
  destruct v as [|c r]; simpl; [auto|].
  intros Hv. destruct (Url.isSlash c); [|exact Hv].
  now apply andb_true_iff in Hv as [_ Hv].
Qed.

Lemma stable_not (c : ascii) (s : string) :
  stableChar c = false ->
  Url.allChars stableChar s = true ->
  Url.allChars (fun d => negb (Ascii.eqb d c)) s = true.
Proof.
  intros Hc. apply allChars_weaken. intros d Hd.
  apply negb_true_iff. apply Ascii.eqb_neq. intros ->. congruence.
Qed.

Lemma href_after_origin (u : Url.URL) :
  Js.slice (Url.href u) (String.length (Url.origin u))
  = Url.pathname u ++ searchAndHash u.
Proof. reflexivity. Qed.

(* ================================================================== *)
(** ** Percent-encoding and [decodeURI]                                *)
(* ================================================================== *)

Lemma hexOctet_hexDigit (c : ascii) :
  Js.hexOctet (Js.hexDigit (Js.code c / 16)) (Js.hexDigit (Js.code c mod 16))
  = Some (Js.code c).
Proof. destruct c as [[] [] [] [] [] [] [] []]; reflexivity. Qed.

Lemma chr_code (c : ascii) : Js.chr (Js.code c) = c.
Proof. destruct c as [[] [] [] [] [] [] [] []]; reflexivity. Qed.

Lemma decodable_escapes (S : ascii -> bool) (c : ascii) :
  decodable S c = true -> (S c || negb (Ascii.eqb c "%")) = true.
Proof.
  unfold decodable. destruct (S c); [reflexivity|].
  now destruct (128 <=? Js.code c).
Qed.

(** The octets of a percent-encoded string in which no [%] is left
    bare. *)
Lemma tokens_percentEncode (S : ascii -> bool) (s : string) :
  Url.allChars (fun c => S c || negb (Ascii.eqb c "%")) s = true ->
  Js.tokens (Url.percentEncode S s) = Some (encodedTokens S s).
Proof.
  induction s as [|c s IH]; [reflexivity|].
  intros Hs. cbn [Url.allChars] in Hs. apply andb_true_iff in Hs as [Hc Hs].
  cbn [Url.percentEncode encodedTokens].
  destruct (S c) eqn:HS.
  - unfold Js.percentByte. simpl String.append. cbn [Js.tokens].
    change (Ascii.eqb "%" "%") with true. cbv iota.
    now rewrite hexOctet_hexDigit, (IH Hs).
  - cbn [orb] in Hc. apply negb_true_iff in Hc.
    unfold Js.str. simpl String.append. cbn [Js.tokens].
    now rewrite Hc, (IH Hs).
Qed.

(** A well-formed string decodes back from its octets. *)
Lemma decodeTokens_encoded (S : ascii -> bool) (n : nat) (s : string) :
  (String.length s <= n)%nat ->
  Url.allChars (decodable S) s = true ->
  wellFormedUtf8 s = true ->
  Js.decodeTokens uriPreserved (encodedTokens S s) = Some s.
Proof.
  revert s. induction n as [|n IH]; intros s Hlen Hs Hwf.
  { destruct s; [reflexivity | cbn in Hlen; lia]. }
  destruct s as [|c1 r1]; [reflexivity|].
  cbn [String.length] in Hlen.
  cbn [Url.allChars] in Hs. apply andb_true_iff in Hs as [Hc1 Hs].
  cbn [wellFormedUtf8] in Hwf. cbv zeta in Hwf.
  cbn [encodedTokens].
  assert (Hhigh : forall c, decodable S c = true -> (Js.code c <? 128) = false ->
                            S c = true).
  { intros c Hc Hb. unfold decodable in Hc.
    destruct (128 <=? Js.code c) eqn:Hge; [exact Hc|].
    apply Z.ltb_ge in Hb. apply Z.leb_gt in Hge. lia. }
  destruct (Js.code c1 <? 128) eqn:Hb1.
  - (* one octet *)
    assert (IHr : Js.decodeTokens uriPreserved (encodedTokens S r1) = Some r1)
      by (apply IH; [lia | assumption | assumption]).
    destruct (S c1) eqn:HS1.
    + cbn [Js.decodeTokens]. rewrite Hb1, chr_code.
      unfold decodable in Hc1. rewrite HS1 in Hc1.
      destruct (128 <=? Js.code c1) eqn:Hge.
      { apply Z.ltb_lt in Hb1. apply Z.leb_le in Hge. lia. }
      apply negb_true_iff in Hc1. rewrite Hc1, IHr. reflexivity.
    + cbn [Js.decodeTokens]. now rewrite IHr.
  - rewrite (Hhigh c1 Hc1 Hb1). cbn [Js.decodeTokens]. rewrite Hb1.
    destruct (Js.between 192 223 (Js.code c1)) eqn:H2.
    { (* two octets *)
      destruct r1 as [|c2 r2]; [discriminate|].
      apply andb_true_iff in Hwf as [Hu Hwf].
      cbn [Url.allChars] in Hs. apply andb_true_iff in Hs as [Hc2 Hs].
      assert (Hb2 : (Js.code c2 <? 128) = false).
      { unfold Js.utf8_2, Js.between in Hu. apply Z.ltb_ge. lia. }
      cbn [encodedTokens]. rewrite (Hhigh c2 Hc2 Hb2), Hu.
      rewrite IH; [|cbn [String.length] in Hlen; lia|assumption|assumption].
      cbn [option_map]. now rewrite !chr_code. }
    destruct (Js.between 224 239 (Js.code c1)) eqn:H3.
    { (* three octets *)
      destruct r1 as [|c2 [|c3 r3]]; try discriminate.
      apply andb_true_iff in Hwf as [Hu Hwf].
      cbn [Url.allChars] in Hs.
      apply andb_true_iff in Hs as [Hc2 Hs]. apply andb_true_iff in Hs as [Hc3 Hs].
      assert (Hb23 : (Js.code c2 <? 128) = false /\ (Js.code c3 <? 128) = false).
      { unfold Js.utf8_3, Js.between in Hu. rewrite !Z.ltb_ge. lia. }
      destruct Hb23 as [Hb2 Hb3].
      cbn [encodedTokens]. rewrite (Hhigh c2 Hc2 Hb2), (Hhigh c3 Hc3 Hb3), Hu.
      rewrite IH; [|cbn [String.length] in Hlen; lia|assumption|assumption].
      cbn [option_map]. now rewrite !chr_code. }
    destruct (Js.between 240 247 (Js.code c1)) eqn:H4; [|discriminate].
    (* four octets *)
    destruct r1 as [|c2 [|c3 [|c4 r4]]]; try discriminate.
    apply andb_true_iff in Hwf as [Hu Hwf].
    cbn [Url.allChars] in Hs.
    apply andb_true_iff in Hs as [Hc2 Hs]. apply andb_true_iff in Hs as [Hc3 Hs].
    apply andb_true_iff in Hs as [Hc4 Hs].
    assert (Hb234 : (Js.code c2 <? 128) = false /\ (Js.code c3 <? 128) = false
                    /\ (Js.code c4 <? 128) = false).
    { unfold Js.utf8_4, Js.between in Hu. rewrite !Z.ltb_ge. lia. }
    destruct Hb234 as (Hb2 & Hb3 & Hb4).
    cbn [encodedTokens].
    rewrite (Hhigh c2 Hc2 Hb2), (Hhigh c3 Hc3 Hb3), (Hhigh c4 Hc4 Hb4), Hu.
    rewrite IH; [|cbn [String.length] in Hlen; lia|assumption|assumption].
    cbn [option_map]. now rewrite !chr_code.
Qed.

(** [decodeURI] undoes a percent-encoding that escapes what it must. *)
Lemma decodeURI_percentEncode (S : ascii -> bool) (s : string) :
  Url.allChars (decodable S) s = true ->
  wellFormedUtf8 s = true ->
  Js.decodeURI (Url.percentEncode S s) = Normal s.
Proof.
  intros Hs Hwf. unfold Js.decodeURI.
  rewrite (tokens_percentEncode S s)
    by (revert Hs; apply allChars_weaken, decodable_escapes).
  change (fun c => Js.uriReserved c || Ascii.eqb c "#") with uriPreserved.
  now rewrite (decodeTokens_encoded S _ s (Nat.le_refl _) Hs Hwf).
Qed.

Lemma encodeURI_percentEncode (s : string) :
  Js.encodeURI s = Url.percentEncode uriEscaped s.
Proof.
  induction s as [|c s IH]; [reflexivity|].
  cbn [Js.encodeURI Url.percentEncode]. rewrite IH. unfold uriEscaped.
  now destruct (Js.uriReserved c || Js.uriUnescaped c || Ascii.eqb c "#").
Qed.

(* ================================================================== *)
(** ** Percent-encoded paths                                           *)
(* ================================================================== *)

Lemma hexDigit_facts (c : ascii) :
  let h1 := Js.hexDigit (Js.code c / 16) in
  let h2 := Js.hexDigit (Js.code c mod 16) in
  Url.isSlash h1 = false /\ Url.isSlash h2 = false
  /\ stableChar h1 = true /\ stableChar h2 = true.
Proof. destruct c as [[] [] [] [] [] [] [] []]; repeat split. Qed.

Lemma plainChar_facts (c : ascii) :
  plainChar c = true ->
  (32 <? Js.code c) = true
  /\ Url.isSlash c = Ascii.eqb c "/"
  /\ Ascii.eqb c "%" = false
  /\ Ascii.eqb c "#" = false
  /\ Ascii.eqb c "?" = false
  /\ decodable Url.pathSet c = true
  /\ (uriEscaped c = false -> stableChar c = true)
  /\ (stableChar c = true -> uriEscaped c = false)
  /\ (Url.isSlash c = true -> uriEscaped c = false).
Proof.
  destruct c as [[] [] [] [] [] [] [] []]; vm_compute; intros Hc;
    try discriminate Hc; repeat split; intros Hx; try discriminate Hx; reflexivity.
Qed.

Lemma carriedChar_facts (c : ascii) :
  carriedChar c = true ->
  Url.pathSet c = false
  /\ Url.isSlash c = Ascii.eqb c "/"
  /\ Url.isTabOrNewline c = false
  /\ Ascii.eqb c "\" = false.
Proof.
  destruct c as [[] [] [] [] [] [] [] []]; vm_compute; intros Hc;
    try discriminate Hc; repeat split.
Qed.

Lemma decodable_uriEscaped (c : ascii) : decodable uriEscaped c = true.
Proof. destruct c as [[] [] [] [] [] [] [] []]; reflexivity. Qed.

Lemma allChars_all (P : ascii -> bool) (s : string) :
  (forall c, P c = true) -> Url.allChars P s = true.
Proof.
  intros HP. induction s as [|c s IH]; [reflexivity|].
  cbn [Url.allChars]. now rewrite HP, IH.
Qed.

(** [decodeURI] undoes [encodeURI]. *)
Lemma decodeURI_encodeURI (s : string) :
  wellFormedUtf8 s = true -> Js.decodeURI (Js.encodeURI s) = Normal s.
Proof.
  intros Hwf. rewrite encodeURI_percentEncode.
  apply decodeURI_percentEncode; [|exact Hwf].
  apply allChars_all, decodable_uriEscaped.
Qed.

Lemma percentEncode_id (S P : ascii -> bool) (s : string) :
  (forall c, P c = true -> S c = false) ->
  Url.allChars P s = true -> Url.percentEncode S s = s.
Proof.
  intros HPS. induction s as [|c s IH]; [reflexivity|].
  cbn [Url.allChars Url.percentEncode].
  intros Hs. apply andb_true_iff in Hs as [Hc Hs].
  now rewrite (HPS c Hc), (IH Hs).
Qed.

Lemma removeChars_id (R P : ascii -> bool) (s : string) :
  (forall c, P c = true -> R c = false) ->
  Url.allChars P s = true -> Url.removeChars R s = s.
Proof.
  intros HPR. induction s as [|c s IH]; [reflexivity|].
  cbn [Url.allChars Url.removeChars].
  intros Hs. apply andb_true_iff in Hs as [Hc Hs].
  now rewrite (HPR c Hc), (IH Hs).
Qed.

Lemma splitSegs_allChars (P : ascii -> bool) (s : string) :
  Url.allChars P s = true ->
  Forall (fun seg => Url.allChars P seg = true) (Url.splitSegs s).
Proof.
  induction s as [|c s IH]; cbn [Url.allChars Url.splitSegs].
  - intros _. now constructor.
  - intros Hs. apply andb_true_iff in Hs as [Hc Hs]. specialize (IH Hs).
    destruct (Url.isSlash c).
    + now constructor.
    + destruct (Url.splitSegs s) as [|h t]; inversion IH; subst.
      * constructor; [cbn; now rewrite Hc | constructor].
      * constructor; [cbn [Url.allChars]|assumption].
        apply andb_true_iff. now split.
Qed.

(** The segments of a string without a backslash, joined again. *)
Lemma serializePath_splitSegs_slash (s : string) :
  Url.allChars (fun c => negb (Ascii.eqb c "\")) s = true ->
  Url.serializePath (Url.splitSegs s) = String "/" s.
Proof.
  induction s as [|c s IH]; [reflexivity|].
  cbn [Url.allChars]. intros Hs. apply andb_true_iff in Hs as [Hc Hs].
  specialize (IH Hs). apply negb_true_iff in Hc.
  cbn [Url.splitSegs]. unfold Url.isSlash. rewrite Hc, orb_false_r.
  destruct (Ascii.eqb_spec c "/") as [->|Hne].
  - cbn [Url.serializePath]. now rewrite IH.
  - destruct (Url.splitSegs s) as [|h t] eqn:Hsplit.
    + now elim (splitSegs_nonempty s).
    + cbn [Url.serializePath] in *. simpl in *. injection IH as IH. now rewrite IH.
Qed.

(** Percent-encoding goes through the separators it leaves alone. *)
Lemma splitSegs_percentEncode (S : ascii -> bool) (s : string) :
  Url.allChars (fun c => negb (Url.isSlash c && S c)) s = true ->
  Url.splitSegs (Url.percentEncode S s)
  = map (Url.percentEncode S) (Url.splitSegs s).
Proof.
  induction s as [|c s IH]; [reflexivity|].
  cbn [Url.allChars]. intros Hs. apply andb_true_iff in Hs as [Hc Hs].
  specialize (IH Hs). apply negb_true_iff in Hc.
  cbn [Url.percentEncode Url.splitSegs].
  pose proof (splitSegs_nonempty s) as Hne.
  destruct (S c) eqn:HS.
  - rewrite andb_true_r in Hc. rewrite Hc.
    destruct (hexDigit_facts c) as (H1 & H2 & _). cbv zeta in H1, H2.
    unfold Js.percentByte. simpl String.append. cbn [Url.splitSegs].
    change (Url.isSlash "%") with false. cbv iota. rewrite H1, H2, IH.
    destruct (Url.splitSegs s) as [|h t]; [contradiction|].
    cbn [map Url.percentEncode]. rewrite HS. reflexivity.
  - unfold Js.str. simpl String.append. cbn [Url.splitSegs].
    destruct (Url.isSlash c).
    + now rewrite IH.
    + rewrite IH. destruct (Url.splitSegs s) as [|h t]; [contradiction|].
      cbn [map Url.percentEncode]. rewrite HS. reflexivity.
Qed.

(* ---------------------------------------------------------------- *)
(** *** Dot segments under percent-encoding                          *)
(* ---------------------------------------------------------------- *)

Lemma lowerChar_facts (c : ascii) :
  Ascii.eqb (Js.lowerChar c) "%" = Ascii.eqb c "%"
  /\ Js.hexVal (Js.lowerChar c) = Js.hexVal c
  /\ (Js.lowerChar c = "."%char -> c = "."%char).
Proof.
  destruct c as [[] [] [] [] [] [] [] []]; repeat split; intros Hx; discriminate Hx.
Qed.

Lemma tokens_toLowerCase_bound (n : nat) (s : string) :
  (String.length s <= n)%nat ->
  Js.tokens (Js.toLowerCase s) = option_map (map lowerToken) (Js.tokens s).
Proof.
  revert s. induction n as [|n IH]; intros s Hlen.
  { destruct s; [reflexivity | cbn in Hlen; lia]. }
  destruct s as [|c r]; [reflexivity|].
  cbn [String.length] in Hlen.
  cbn [Js.toLowerCase Js.tokens].
  destruct (lowerChar_facts c) as (Hpc & _). rewrite Hpc.
  destruct (Ascii.eqb c "%").
  - destruct r as [|h1 [|h2 r']]; try reflexivity.
    cbn [Js.toLowerCase]. unfold Js.hexOctet.
    destruct (lowerChar_facts h1) as (_ & Hh1 & _).
    destruct (lowerChar_facts h2) as (_ & Hh2 & _).
    rewrite Hh1, Hh2.
    destruct (Js.hexVal h1); [|reflexivity].
    destruct (Js.hexVal h2); [|reflexivity].
    rewrite IH by (cbn [String.length] in Hlen; lia).
    now destruct (Js.tokens r').
  - rewrite IH by lia. now destruct (Js.tokens r).
Qed.

Lemma lowered_tokens (S : ascii -> bool) (s pat : string) :
  Url.allChars (fun c => S c || negb (Ascii.eqb c "%")) s = true ->
  Js.toLowerCase (Url.percentEncode S s) = pat ->
  Js.tokens pat = Some (map lowerToken (encodedTokens S s)).
Proof.
  intros Hs <-.
  rewrite (tokens_toLowerCase_bound _ _ (Nat.le_refl _)).
  now rewrite (tokens_percentEncode S s Hs).
Qed.

Lemma encodedTokens_nil (S : ascii -> bool) (s : string) :
  map lowerToken (encodedTokens S s) = [] -> s = EmptyString.
Proof. destruct s; [reflexivity | discriminate]. Qed.

Lemma encodedTokens_dot (S : ascii -> bool) (s : string) (ts : list Js.token) :
  map lowerToken (encodedTokens S s) = Js.Lit "." :: ts ->
  exists r, s = String "." r /\ map lowerToken (encodedTokens S r) = ts.
Proof.
  destruct s as [|c r]; [discriminate|].
  cbn [encodedTokens map]. destruct (S c); cbn [lowerToken]; [discriminate|].
  intros Hm. injection Hm as Hc Hr.
  destruct (lowerChar_facts c) as (_ & _ & Hdot).
  exists r. now rewrite (Hdot Hc).
Qed.

Lemma encodedTokens_escaped_dot (S : ascii -> bool) (s : string)
    (h1 h2 : ascii) (ts : list Js.token) :
  S "."%char = false ->
  map lowerToken (encodedTokens S s) = Js.Esc 46 h1 h2 :: ts -> False.
Proof.
  intros HS. destruct s as [|c r]; [discriminate|].
  cbn [encodedTokens map]. destruct (S c) eqn:HSc; cbn [lowerToken]; [|discriminate].
  intros Hm. injection Hm as Hc _ _ _.
  assert (c = "."%char) as -> by (rewrite <- (chr_code c), Hc; reflexivity).
  congruence.
Qed.

(** Percent-encoding makes no dot segment of a segment that is none. *)
Lemma plainSeg_percentEncode (S : ascii -> bool) (seg : string) :
  S "."%char = false ->
  Url.allChars (fun c => S c || negb (Ascii.eqb c "%")) seg = true ->
  plainSeg seg = true ->
  plainSeg (Url.percentEncode S seg) = true.
Proof.
  intros HS Hseg Hp.
  assert (Hdots : forall pat,
            Js.toLowerCase (Url.percentEncode S seg) = pat ->
            (Js.tokens pat = Some [Js.Lit "."] -> seg = ".")
            /\ (Js.tokens pat = Some [Js.Lit "."; Js.Lit "."] -> seg = "..")
            /\ (Js.tokens pat = Some [Js.Esc 46 "2" "e"] -> False)
            /\ (Js.tokens pat = Some [Js.Lit "."; Js.Esc 46 "2" "e"] -> False)
            /\ (Js.tokens pat = Some [Js.Esc 46 "2" "e"; Js.Lit "."] -> False)
            /\ (Js.tokens pat = Some [Js.Esc 46 "2" "e"; Js.Esc 46 "2" "e"] -> False)).
  { intros pat Hpat.
    pose proof (lowered_tokens S seg pat Hseg Hpat) as Hm.
    repeat split; intros Hts; rewrite Hts in Hm; injection Hm as Hm; symmetry in Hm.
    - apply encodedTokens_dot in Hm as (r & -> & Hm).
      now rewrite (encodedTokens_nil S r Hm).
    - apply encodedTokens_dot in Hm as (r & -> & Hm).
      apply encodedTokens_dot in Hm as (r' & -> & Hm).
      now rewrite (encodedTokens_nil S r' Hm).
    - now apply encodedTokens_escaped_dot in Hm.
    - apply encodedTokens_dot in Hm as (r & -> & Hm).
      now apply encodedTokens_escaped_dot in Hm.
    - now apply encodedTokens_escaped_dot in Hm.
    - now apply encodedTokens_escaped_dot in Hm. }
  unfold plainSeg in *. apply andb_true_iff in Hp as [Hp1 Hp2].
  apply negb_true_iff in Hp1, Hp2.
  apply andb_true_iff. split; apply negb_true_iff.
  - unfold Url.isSingleDot. cbv zeta.
    apply orb_false_iff. split; apply String.eqb_neq; intros Hl;
      destruct (Hdots _ Hl) as (D1 & D2 & D3 & D4 & D5 & D6).
    + rewrite (D1 eq_refl) in Hp1. discriminate Hp1.
    + now apply D3.
  - unfold Url.isDoubleDot. cbv zeta.
    repeat (apply orb_false_iff; split); apply String.eqb_neq; intros Hl;
      destruct (Hdots _ Hl) as (D1 & D2 & D3 & D4 & D5 & D6).
    + rewrite (D2 eq_refl) in Hp2. discriminate Hp2.
    + now apply D4.
    + now apply D5.
    + now apply D6.
Qed.

Lemma forallb_plainSeg_percentEncode (S P : ascii -> bool) (s : string) :
  S "."%char = false ->
  (forall c, P c = true -> (S c || negb (Ascii.eqb c "%")) = true) ->
  Url.allChars P s = true ->
  forallb plainSeg (Url.splitSegs s) = true ->
  forallb plainSeg (map (Url.percentEncode S) (Url.splitSegs s)) = true.
Proof.
  intros HS HP Hs Hp.
  pose proof (splitSegs_allChars P s Hs) as Hall.
  induction Hall as [|seg segs Hseg _ IH]; [reflexivity|].
  cbn [forallb map] in *. apply andb_true_iff in Hp as [Hp1 Hp2].
  rewrite (IH Hp2), andb_true_r.
  apply plainSeg_percentEncode; [exact HS | | exact Hp1].
  revert Hseg. apply allChars_weaken. exact HP.
Qed.

Lemma allChars_percentEncode (S Q P : ascii -> bool) (s : string) :
  Q "%"%char = true ->
  (forall c, Q (Js.hexDigit (Js.code c / 16)) = true
             /\ Q (Js.hexDigit (Js.code c mod 16)) = true) ->
  (forall c, P c = true -> S c = false -> Q c = true) ->
  Url.allChars P s = true ->
  Url.allChars Q (Url.percentEncode S s) = true.
Proof.
  intros Hpc Hhex HPQ. induction s as [|c s IH]; [reflexivity|].
  cbn [Url.allChars Url.percentEncode].
  intros Hs. apply andb_true_iff in Hs as [Hc Hs]. specialize (IH Hs).
  destruct (S c) eqn:HS.
  - destruct (Hhex c) as [H1 H2].
    unfold Js.percentByte. simpl String.append. cbn [Url.allChars].
    now rewrite Hpc, H1, H2, IH.
  - unfold Js.str. simpl String.append. cbn [Url.allChars].
    now rewrite (HPQ c Hc HS), IH.
Qed.

Lemma encodeURI_carried (s : string) :
  Url.allChars plainChar s = true ->
  Url.allChars carriedChar (Js.encodeURI s) = true.
Proof.
  rewrite encodeURI_percentEncode.
  apply allChars_percentEncode; [reflexivity | |].
  - intros c. destruct (hexDigit_facts c) as (_ & _ & H1 & H2). cbv zeta in H1, H2.
    unfold carriedChar. now rewrite H1, H2.
  - intros c Hc HS. destruct (plainChar_facts c Hc) as (_ & _ & _ & _ & _ & _ & Hst & _).
    unfold carriedChar. now rewrite (Hst HS).
Qed.

Lemma pathEncoded_no_backslash (s : string) :
  Url.allChars plainChar s = true ->
  Url.allChars (fun c => negb (Ascii.eqb c "\")) (Url.percentEncode Url.pathSet s) = true.
Proof.
  apply allChars_percentEncode; [reflexivity | |].
  - intros c. destruct (hexDigit_facts c) as (H1 & H2 & _). cbv zeta in H1, H2.
    unfold Url.isSlash in H1, H2.
    apply orb_false_iff in H1 as [_ H1]. apply orb_false_iff in H2 as [_ H2].
    now rewrite H1, H2.
  - intros c Hc _. destruct (plainChar_facts c Hc) as (_ & Hsl & _).
    unfold Url.isSlash in Hsl.
    destruct (Ascii.eqb_spec c "\") as [->|_]; [discriminate Hsl | reflexivity].
Qed.

Lemma pathSet_keeps_separators (c : ascii) :
  negb (Url.isSlash c && Url.pathSet c) = true.
Proof. destruct c as [[] [] [] [] [] [] [] []]; reflexivity. Qed.

Lemma splitSegs_prefixed (t : string) :
  Url.splitSegs ("@fs/" ++ t) = "@fs" :: Url.splitSegs t.
Proof.
  simpl. destruct (Url.splitSegs t) eqn:E; [now elim (splitSegs_nonempty t)|].
  reflexivity.
Qed.

(** The URL of a path behind the prefix: the parser percent-encodes the
    path and keeps its segments. *)
Lemma originFormURL_fs_plain (t : string) :
  Url.allChars plainChar t = true ->
  forallb plainSeg (Url.splitSegs t) = true ->
  exists url,
    Url.originForm (FS_PREFIX ++ t) = true
    /\ Url.originFormURL (FS_PREFIX ++ t) = Normal url
    /\ Url.pathname url = Url.percentEncode Url.pathSet (FS_PREFIX ++ t)
    /\ Url.query url = None /\ Url.fragment url = None.
Proof.
  intros Hs Hp.
  assert (Hall : Url.allChars plainChar (FS_PREFIX ++ t) = true) by exact Hs.
  assert (Hform : Url.originForm (FS_PREFIX ++ t) = true).
  { unfold Url.originForm. simpl.
    revert Hs. apply allChars_weaken. intros c Hc.
    now destruct (plainChar_facts c Hc). }
  assert (Hno : forall x, plainChar x = false ->
                  Url.allChars (fun d => negb (Ascii.eqb d x)) (FS_PREFIX ++ t) = true).
  { intros x Hx. revert Hall. apply allChars_weaken. intros d Hd.
    apply negb_true_iff. apply Ascii.eqb_neq. intros ->. congruence. }
  eexists. split; [exact Hform|].
  unfold Url.originFormURL. rewrite Hform.
  rewrite (cut_absent _ "#" (Hno "#"%char eq_refl)).
  rewrite (cut_absent _ "?" (Hno "?"%char eq_refl)).
  cbn [option_map].
  change (Js.slice (FS_PREFIX ++ t) 1) with ("@fs/" ++ t).
  split; [reflexivity|]. split; [|split; reflexivity].
  unfold Url.pathname. cbn [Url.path]. unfold Url.parsePath.
  rewrite splitSegs_prefixed. cbn [map].
  change (Url.percentEncode Url.pathSet "@fs") with "@fs".
  assert (Hplain : forallb plainSeg (map (Url.percentEncode Url.pathSet) (Url.splitSegs t))
                   = true).
  { apply (forallb_plainSeg_percentEncode Url.pathSet plainChar); try assumption.
    - reflexivity.
    - intros c Hc. destruct (plainChar_facts c Hc) as (_ & _ & Hpc & _).
      rewrite Hpc. apply orb_true_r. }
  rewrite pathState_plain; [|discriminate|cbn [forallb]; now rewrite Hplain].
  cbn [rev app Url.serializePath].
  rewrite <- splitSegs_percentEncode by (apply allChars_all, pathSet_keeps_separators).
  rewrite serializePath_splitSegs_slash by (now apply pathEncoded_no_backslash).
  reflexivity.
Qed.

Lemma dropLead_encodeURI (v : string) :
  Url.allChars plainChar v = true ->
  dropLead (Js.encodeURI v) = Js.encodeURI (dropLead v).
Proof.
  destruct v as [|c r]; [reflexivity|].
  cbn [Url.allChars]. intros Hv. apply andb_true_iff in Hv as [Hc _].
  destruct (plainChar_facts c Hc) as (_ & Hsl & _ & _ & _ & _ & _ & _ & Hesc).
  cbn [dropLead]. destruct (Url.isSlash c) eqn:Hs.
  - specialize (Hesc eq_refl). unfold uriEscaped in Hesc.
    apply negb_false_iff in Hesc.
    cbn [Js.encodeURI]. rewrite Hesc.
    unfold Js.str. simpl String.append. cbn [dropLead]. now rewrite Hs.
  - cbn [Js.encodeURI].
    destruct (Js.uriReserved c || Js.uriUnescaped c || Ascii.eqb c "#").
    + unfold Js.str. simpl String.append. cbn [dropLead]. now rewrite Hs.
    + reflexivity.
Qed.

(** The path of encoded octets is parsed as it stands. *)
Lemma parsePath_encodeURI (d : string) :
  Url.allChars plainChar d = true ->
  forallb plainSeg (Url.splitSegs d) = true ->
  Url.serializePath (Url.parsePath (Js.encodeURI d)) = String "/" (Js.encodeURI d).
Proof.
  intros Hd Hp.
  pose proof (encodeURI_carried d Hd) as Hcar.
  assert (Hid : Url.percentEncode Url.pathSet (Js.encodeURI d) = Js.encodeURI d).
  { apply (percentEncode_id _ carriedChar); [|exact Hcar].
    intros c Hc. now destruct (carriedChar_facts c Hc). }
  unfold Url.parsePath.
  rewrite <- splitSegs_percentEncode by (apply allChars_all, pathSet_keeps_separators).
  rewrite Hid.
  assert (Hsegs : Url.splitSegs (Js.encodeURI d)
                  = map (Url.percentEncode uriEscaped) (Url.splitSegs d)).
  { rewrite encodeURI_percentEncode. apply splitSegs_percentEncode.
    revert Hd. apply allChars_weaken. intros c Hc.
    destruct (plainChar_facts c Hc) as (_ & _ & _ & _ & _ & _ & _ & _ & Hesc).
    destruct (Url.isSlash c); [|reflexivity]. now rewrite (Hesc eq_refl). }
  rewrite pathState_plain.
  - cbn [rev app]. apply serializePath_splitSegs_slash.
    revert Hcar. apply allChars_weaken. intros c Hc.
    destruct (carriedChar_facts c Hc) as (_ & _ & _ & Hb). now rewrite Hb.
  - apply splitSegs_nonempty.
  - rewrite Hsegs.
    apply (forallb_plainSeg_percentEncode uriEscaped plainChar); try assumption.
    + reflexivity.
    + intros c Hc. destruct (plainChar_facts c Hc) as (_ & _ & Hpc & _).
      rewrite Hpc. apply orb_true_r.
Qed.

(** [encodeURI] is the identity exactly on the stable characters. *)
Lemma encodeURI_fixes_stable (s : string) :
  Url.allChars plainChar s = true ->
  Js.encodeURI s = s <-> Url.allChars stableChar s = true.
Proof.
  intros Hs. split; [|apply encodeURI_stable].
  induction s as [|c s IH]; [reflexivity|].
  cbn [Url.allChars] in Hs. apply andb_true_iff in Hs as [Hc Hs].
  destruct (plainChar_facts c Hc) as (_ & _ & Hpc & _ & _ & _ & Hst & _).
  cbn [Js.encodeURI Url.allChars].
  fold (negb (uriEscaped c)). unfold uriEscaped in *.
  destruct (Js.uriReserved c || Js.uriUnescaped c || Ascii.eqb c "#").
  - unfold Js.str. simpl String.append. intros He. injection He as He.
    now rewrite (Hst eq_refl), (IH Hs He).
  - unfold Js.percentByte. simpl String.append. intros He. injection He as He _.
    apply Ascii.eqb_neq in Hpc. now elim Hpc.
Qed.

Section RawFsFacts.
Context `{Imports}.

(** What the raw-fs stage makes of a plain path behind the prefix. *)
Lemma rawFsUrl_plain (t : string) :
  OriginFormParser ->
  Url.allChars plainChar t = true ->
  wellFormedUtf8 t = true ->
  forallb plainSeg (Url.splitSegs t) = true ->
  let v := if isWindows then stripDrive t else t in
  Url.allChars plainChar v = true ->
  forallb plainSeg (Url.splitSegs (dropLead v)) = true ->
  rawFsUrl (FS_PREFIX ++ t) = Normal (String "/" (Js.encodeURI (dropLead v))).
Proof.
  intros Hparser Hs Hwf Hp v Hv Hpv.
  destruct (originFormURL_fs_plain t Hs Hp) as (url & Hform & Hurl & Hpath & Hq & Hf).
  unfold rawFsUrl. rewrite (Hparser _ Hform), Hurl. cbn [bind].
  rewrite Hpath.
  rewrite decodeURI_percentEncode.
  2:{ change (Url.allChars (decodable Url.pathSet) t = true).
      revert Hs. apply allChars_weaken. intros c Hc.
      now destruct (plainChar_facts c Hc) as (_ & _ & _ & _ & _ & Hdec & _). }
  2:{ exact Hwf. }
  cbn [bind].
  change (Js.slice (FS_PREFIX ++ t) (String.length FS_PREFIX)) with t.
  fold v. rewrite href_after_origin.
  unfold Url.setPathname.
  rewrite (removeChars_id _ carriedChar).
  2:{ intros c Hc. now destruct (carriedChar_facts c Hc) as (_ & _ & Htab & _). }
  2:{ now apply encodeURI_carried. }
  fold (dropLead (Js.encodeURI v)). rewrite (dropLead_encodeURI v Hv).
  unfold Url.pathname, searchAndHash. cbn [Url.path Url.query Url.fragment].
  rewrite Hq, Hf.
  rewrite (parsePath_encodeURI (dropLead v) (allChars_dropLead _ _ Hv) Hpv).
  now rewrite !sapp_nil_r.
Qed.

Lemma stripDrive_absolute (q : string) :
  stripDrive (String "/" q) = String "/" q.
Proof.
  destruct q as [|c q]; [reflexivity|].
  destruct c as [[] [] [] [] [] [] [] []]; reflexivity.
Qed.

Lemma rawfs_stage_on_prefix (sirv : Sirv) (server : ViteDevServer)
    (t u : string) (w : World) :
  rawFsUrl (FS_PREFIX ++ t) = Normal u ->
  serveRawFsMiddleware sirv server (FS_PREFIX ++ t) w
  = serveGuarded
      (sirv "/" (sirvOptions (config server) (fun _ => server_headers (config server)) false))
      server u w.
Proof.
  intros Hu. unfold serveRawFsMiddleware.
  apply rawfs_stage_proceeds; [reflexivity | exact Hu].
Qed.

(** C5, as the code has it.  Let [p] be an absolute path that holds no
    space and no control character (a request URL holds none), none of
    [%], [?], [#] and the backslash, no lone surrogate and no [.] or [..]
    segment.  The raw-fs stage turns the request for [p] behind the
    prefix into the request for [encodeURI(p)] and hands that to the
    collaborator rooted at [/], whatever the project root is.  The
    request names [p]: [decodeURI] gives [p] back from it, and it is [p]
    itself exactly when [p] is made of the characters that [encodeURI]
    leaves alone.  The same holds for [/@fs] joined to [p] off Windows,
    where [p] does not begin with two slashes, and on Windows for [p]
    behind a drive letter and a colon, which are stripped. *)
Theorem escape_hatch_round_trip
    (sirv : Sirv) (server : ViteDevServer) (p : string) (w : World) :
  OriginFormParser ->
  plainPath p = true ->
  let serveFromRoot :=
    sirv "/" (sirvOptions (config server) (fun _ => server_headers (config server)) false) in
  let u := Js.encodeURI p in
  Js.decodeURI u = Normal p
  /\ (u = p <-> Url.allChars stableChar p = true)
  /\ (rawFsUrl (FS_PREFIX ++ p) = Normal u
      /\ serveRawFsMiddleware sirv server (FS_PREFIX ++ p) w
         = serveGuarded serveFromRoot server u w)
  /\ (isWindows = false ->
      Js.startsWith p "//" = false ->
      rawFsUrl ("/@fs" ++ p) = Normal u
      /\ serveRawFsMiddleware sirv server ("/@fs" ++ p) w
         = serveGuarded serveFromRoot server u w)
  /\ (isWindows = true ->
      forall d, Js.isAlpha d = true ->
      rawFsUrl (FS_PREFIX ++ String d (String ":" p)) = Normal u
      /\ serveRawFsMiddleware sirv server (FS_PREFIX ++ String d (String ":" p)) w
         = serveGuarded serveFromRoot server u w).
Proof.
  intros Hparser Hp serveFromRoot u.
  destruct p as [|c q]; [discriminate|].
  destruct (Ascii.eqb_spec c "/") as [->|Hc].
  2:{ exfalso. revert Hp. destruct c as [[] [] [] [] [] [] [] []];
        try discriminate; now elim Hc. }
  unfold plainPath in Hp.
  apply andb_true_iff in Hp as [Hp Hpq]. apply andb_true_iff in Hp as [Hq Hwf].
  assert (Hu : u = String "/" (Js.encodeURI q)) by reflexivity.
  assert (Hif : (if isWindows then stripDrive (String "/" q) else String "/" q)
                = String "/" q).
  { rewrite stripDrive_absolute. now destruct isWindows. }
  assert (HA : rawFsUrl (FS_PREFIX ++ String "/" q) = Normal u).
  { pose proof (rawFsUrl_plain (String "/" q) Hparser) as HA.
    cbv zeta in HA. rewrite Hif in HA. rewrite Hu.
    apply HA; [exact Hq | exact Hwf | exact Hpq | exact Hq | exact Hpq]. }
  split; [|split; [|split; [|split]]].
  - apply decodeURI_encodeURI. exact Hwf.
  - apply (encodeURI_fixes_stable (String "/" q)). exact Hq.
  - split; [exact HA | now apply rawfs_stage_on_prefix].
  - intros Hwin Hstart.
    assert (Hlead : dropLead q = q).
    { destruct q as [|c q]; [reflexivity|].
      cbn [Url.allChars] in Hq. apply andb_true_iff in Hq as [Hc _].
      destruct (plainChar_facts c Hc) as (_ & Hslash & _).
      cbn [dropLead]. rewrite Hslash.
      destruct (Ascii.eqb_spec c "/") as [->|_]; [discriminate Hstart | reflexivity]. }
    assert (HB : rawFsUrl (FS_PREFIX ++ q) = Normal u).
    { pose proof (rawFsUrl_plain q Hparser Hq Hwf Hpq) as HB.
      cbv zeta in HB. rewrite Hwin, Hlead in HB. rewrite Hu.
      apply HB; [exact Hq | exact Hpq]. }
    split; [exact HB | now apply (rawfs_stage_on_prefix sirv server q)].
  - intros Hwin d Hd.
    assert (Hdf : plainChar d = true /\ Url.isSlash d = false
                  /\ (Js.code d <? 128) = true /\ plainSeg (String d ":") = true).
    { revert Hd. clear. destruct d as [[] [] [] [] [] [] [] []]; vm_compute;
        intros Hd; try discriminate Hd; repeat split. }
    destruct Hdf as (Hdp & Hdslash & Hd7 & Hseg).
    assert (HC : rawFsUrl (FS_PREFIX ++ String d (String ":" (String "/" q)))
                 = Normal u).
    { pose proof (rawFsUrl_plain (String d (String ":" (String "/" q))) Hparser) as HC.
      cbv zeta in HC. rewrite Hwin in HC. cbn [stripDrive] in HC. rewrite Hd in HC.
      rewrite Hu. apply HC.
      - cbn [Url.allChars]. now rewrite Hdp.
      - cbn [wellFormedUtf8]. cbv zeta. now rewrite Hd7.
      - cbn [Url.splitSegs]. rewrite Hdslash.
        change (Url.isSlash ":") with false. change (Url.isSlash "/") with true.
        cbv iota.
        destruct (Url.splitSegs q) eqn:E; [now elim (splitSegs_nonempty q)|].
        cbn [forallb] in Hpq |- *. rewrite Hseg. exact Hpq.
      - exact Hq.
      - exact Hpq. }
    split; [exact HC | now apply rawfs_stage_on_prefix].
Qed.

End RawFsFacts.

Lemma host_parser : OriginFormParser (H := Example.host).
Proof. intros s _. reflexivity. Qed.

Lemma windowsHost_parser : OriginFormParser (H := Example.windowsHost).
Proof. intros s _. reflexivity. Qed.

(** The linked package of the specification, behind the prefix in both
    ways; a file name with brackets, which come out percent-encoded; and
    a path with a drive letter on Windows. *)
Lemma escape_hatch_round_trip_witness :
  let server := mkServer Example.project in
  plainPath "/home/user/linked-pkg/index.js" = true
  /\ rawFsUrl (H := Example.host) "/@fs//home/user/linked-pkg/index.js"
     = Normal "/home/user/linked-pkg/index.js"
  /\ rawFsUrl (H := Example.host) "/@fs/home/user/linked-pkg/index.js"
     = Normal "/home/user/linked-pkg/index.js"
  /\ serveRawFsMiddleware (H := Example.host) (Example.sirv Example.disk) server
       "/@fs/home/user/linked-pkg/index.js" Example.fresh
     = serveGuarded Example.serveFromRoot server "/home/user/linked-pkg/index.js"
         Example.fresh
  /\ plainPath "/tmp/a[1].txt" = true
  /\ rawFsUrl (H := Example.host) "/@fs/tmp/a[1].txt" = Normal "/tmp/a%5B1%5D.txt"
  /\ Js.decodeURI "/tmp/a%5B1%5D.txt" = Normal "/tmp/a[1].txt"
  /\ rawFsUrl (H := Example.windowsHost) "/@fs/C:/Users/me/app.ts"
     = Normal "/Users/me/app.ts".
Proof.
  intros server.
  destruct (escape_hatch_round_trip (H := Example.host) (Example.sirv Example.disk)
              server "/home/user/linked-pkg/index.js" Example.fresh
              host_parser eq_refl) as (_ & _ & [HA _] & HB & _).
  destruct (HB eq_refl eq_refl) as [HB1 HB2].
  destruct (escape_hatch_round_trip (H := Example.host) (Example.sirv Example.disk)
              server "/tmp/a[1].txt" Example.fresh
              host_parser eq_refl) as (HD & _ & _ & HE & _).
  destruct (HE eq_refl eq_refl) as [HE1 _].
  destruct (escape_hatch_round_trip (H := Example.windowsHost) (Example.sirv Example.disk)
              server "/Users/me/app.ts" Example.fresh
              windowsHost_parser eq_refl) as (_ & _ & _ & _ & HC).
  destruct (HC eq_refl "C"%char eq_refl) as [HC1 _].
  split; [reflexivity|].
  split; [exact HA|]. split; [exact HB1|]. split; [exact HB2|].
  split; [reflexivity|]. split; [exact HE1|]. split; [exact HD | exact HC1].
Defined.

(** C5, as it is stated, fails on a path with a percent sign: the file
    [/abs/%41.txt] behind the prefix is taken for [/abs/A.txt], and that
    is the path the collaborator looks up and the policy denies; a lone
    percent sign makes the stage throw. *)
Lemma escaped_path_is_not_restored :
  let server := mkServer Example.project in
  rawFsUrl (H := Example.host) (FS_PREFIX ++ "/abs/%41.txt") = Normal "/abs/A.txt"
  /\ rawFsUrl (H := Example.host) (FS_PREFIX ++ "/abs/%41.txt") <> Normal "/abs/%41.txt"
  /\ serveRawFsMiddleware (H := Example.host) (Example.sirv Example.disk) server
       (FS_PREFIX ++ "/abs/%41.txt") Example.fresh
     = (fst (respondWithAccessDenied "/abs/A.txt" server Example.fresh),
        Normal AccessDenied)
  /\ rawFsUrl (H := Example.host) (FS_PREFIX ++ "/abs/100%.txt") = Throw URIError.
Proof. repeat split; try reflexivity. discriminate. Qed.

(** Why the path of C5 is restricted: a dot segment is resolved, a
    backslash is read as a separator, and [?] and [#] end the path of the
    URL. *)
Example escape_hatch_path_limits :
  rawFsUrl (H := Example.host) (FS_PREFIX ++ "/srv/../etc/passwd") = Normal "/etc/passwd"
  /\ rawFsUrl (H := Example.host) (FS_PREFIX ++ "/a\b") = Normal "/a/b"
  /\ Url.originFormURL (FS_PREFIX ++ "/a?b")
     = Normal (Url.mkURL ["@fs"; EmptyString; "a"] (Some "b") None)
  /\ Url.originFormURL (FS_PREFIX ++ "/a#b")
     = Normal (Url.mkURL ["@fs"; EmptyString; "a"] None (Some "b")).
Proof. repeat split; reflexivity. Qed.

(* ================================================================== *)
(** ** The scenarios of the specification                              *)
(* ================================================================== *)

Example scenario_classify :
  map (isFileLoadingAllowed (H := Example.host) Example.scenario)
    ["/proj/src/app.ts"; "/proj/.env"; "/etc/passwd"]
  = [true; false; false].
Proof. reflexivity. Qed.

Example scenario_access :
  map (checkLoadingAccess (H := Example.host) Example.scenario)
    ["/proj/src/app.ts"; "/etc/passwd"; "/other/nonexistent.js"]
  = [allowed; denied; fallback].
Proof. reflexivity. Qed.

Example scenario_containment :
  isFileInTargetPath (H := Example.host) "/proj" "/proj" = true
  /\ isFileInTargetPath (H := Example.host) "/proj" "/proj/child" = true
  /\ isFileInTargetPath (H := Example.host) "/proj" "/project" = false.
Proof. repeat split; reflexivity. Qed.

Example scenario_script_is_escaped :
  inHtml "/<script>alert(1)</script>" = "/&lt;script&gt;alert(1)&lt;/script&gt;".
Proof. reflexivity. Qed.

Example scenario_denied_request :
  let out := serveRawFsMiddleware (H := Example.host) (Example.sirv Example.disk)
               (mkServer Example.scenario) "/@fs/etc/passwd" Example.fresh in
  snd out = Normal AccessDenied
  /\ statusCode (res (fst out)) = 403
  /\ ended (res (fst out)) = true.
Proof. repeat split; reflexivity. Qed.

Example scenario_missing_file_falls_through :
  snd (serveRawFsMiddleware (H := Example.host) (Example.sirv Example.disk)
         (mkServer Example.scenario) "/@fs/other/nonexistent.js" Example.fresh)
  = Normal (Delegated "/other/nonexistent.js" CalledNext).
Proof. reflexivity. Qed.

(* ================================================================== *)
(** * Further properties                                               *)
(* ================================================================== *)

(** ** The policy, one configuration against another *)

Section PolicyOrder.
Context `{Imports}.

(** X1. A policy that permits more allows every path the other allows:
    dropping strict mode or a deny pattern, trusting more paths or
    adding allow roots never revokes access. *)
Theorem isFileLoadingAllowed_monotone (c c' : ResolvedConfig) (p : string) :
  permitsMore c c' ->
  isFileLoadingAllowed c p = true ->
  isFileLoadingAllowed c' p = true.
Proof.
  intros (Hstrict & Hdeny & Hsafe & Hallow). unfold isFileLoadingAllowed.
  destruct (strict (server_fs c')) eqn:Hs'; [|reflexivity].
  rewrite (Hstrict eq_refl). cbn [negb].
  destruct (fsDenyGlob c' p) eqn:Hd'.
  { now rewrite (Hdeny p Hd'). }
  destruct (fsDenyGlob c p); [discriminate|].
  destruct (bool_decide (p ∈ safeModulePaths c)) eqn:Ht.
  { apply bool_decide_eq_true in Ht. intros _.
    now rewrite (bool_decide_eq_true_2 _ (Hsafe p Ht)). }
  destruct (bool_decide (p ∈ safeModulePaths c')); [reflexivity|].
  destruct (some _ (allow (server_fs c))) eqn:Ha; [|discriminate].
  intros _. apply some_true_iff in Ha as (uri & Hin & Huri).
  assert (Ha' : some (fun uri => isFileInTargetPath uri p) (allow (server_fs c')) = true).
  { apply some_true_iff. exists uri. split; [now apply Hallow | exact Huri]. }
  now rewrite Ha'.
Qed.

(** X2. Only the set of allow roots matters: two policies that differ
    in the order or the repetition of their allow roots decide alike. *)
Theorem allow_roots_as_a_set (c c' : ResolvedConfig) (p : string) :
  strict (server_fs c') = strict (server_fs c) ->
  fsDenyGlob c' = fsDenyGlob c ->
  safeModulePaths c' = safeModulePaths c ->
  (forall uri, In uri (allow (server_fs c)) <-> In uri (allow (server_fs c'))) ->
  isFileLoadingAllowed c' p = isFileLoadingAllowed c p.
Proof.
  intros Hs Hd Ht Ha. unfold isFileLoadingAllowed. rewrite Hs, Hd, Ht.
  destruct (strict (server_fs c)); [|reflexivity]. cbn [negb].
  destruct (fsDenyGlob c p); [reflexivity|].
  destruct (bool_decide (p ∈ safeModulePaths c)); [reflexivity|].
  assert (Hsome : some (fun uri => isFileInTargetPath uri p) (allow (server_fs c'))
                  = some (fun uri => isFileInTargetPath uri p) (allow (server_fs c))).
  { apply eq_true_iff_eq. rewrite !some_true_iff.
    split; intros (uri & Hin & Hu); exists uri; (split; [now apply Ha | exact Hu]). }
  now rewrite Hsome.
Qed.

(** X3. In strict mode the predicate given to the collaborator never
    admits a path whose forward-slash form matches a deny pattern: it
    throws the denial for a readable file and answers [false] for any
    other, whatever the allow roots and the trusted paths are. *)
Theorem shouldServe_never_admits_denied
    (cfg : ResolvedConfig) (getHeaders : unit -> option (list (string * string)))
    (filePath : string) :
  strict (server_fs cfg) = true ->
  fsDenyGlob cfg (slash filePath) = true ->
  exists f,
    shouldServe (sirvOptions cfg getHeaders false) = Some f
    /\ f filePath <> Normal true
    /\ f filePath = if isFileReadable filePath
                    then Throw (deniedError filePath)
                    else Normal false.
Proof.
  intros Hs Hd. eexists. split; [reflexivity|].
  cbn beta. unfold checkLoadingAccess, isFileLoadingAllowed. rewrite Hs, Hd. cbn [negb].
  destruct (isFileReadable filePath); split; (reflexivity || discriminate).
Qed.

End PolicyOrder.

Lemma isFileLoadingAllowed_monotone_witness :
  permitsMore Example.scenario Example.project
  /\ isFileLoadingAllowed (H := Example.host) Example.scenario "/proj/src/app.ts" = true
  /\ isFileLoadingAllowed (H := Example.host) Example.project "/proj/src/app.ts" = true.
Proof.
  assert (Hp : permitsMore Example.scenario Example.project).
  { split; [intros _; reflexivity|]. split; [intros p Hp; exact Hp|].
    split; [|intros uri Hu; exact Hu].
    intros p Hp. apply elem_of_empty in Hp. destruct Hp. }
  split; [exact Hp|]. split; [reflexivity|].
  apply (isFileLoadingAllowed_monotone (H := Example.host)
           Example.scenario Example.project "/proj/src/app.ts" Hp).
  reflexivity.
Defined.

Lemma allow_roots_as_a_set_witness :
  let c := mkConfig "/proj" "/proj/public" (mkFs true ["/proj"; "/lib"]) None
             (fun _ => false) ∅ [] in
  let c' := mkConfig "/proj" "/proj/public" (mkFs true ["/lib"; "/proj"; "/lib"]) None
              (fun _ => false) ∅ [] in
  isFileLoadingAllowed (H := Example.host) c' "/lib/x.js"
  = isFileLoadingAllowed (H := Example.host) c "/lib/x.js".
Proof.
  intros c c'.
  apply (allow_roots_as_a_set (H := Example.host) c c' "/lib/x.js");
    try reflexivity.
  intros uri. simpl. tauto.
Defined.

Lemma shouldServe_never_admits_denied_witness :
  exists f,
    shouldServe (sirvOptions (H := Example.host) Example.project (fun _ => None) false)
      = Some f
    /\ f "/proj/.env" <> Normal true
    /\ f "/proj/.env" = Throw (deniedError "/proj/.env").
Proof.
  exact (shouldServe_never_admits_denied (H := Example.host) Example.project
           (fun _ => None) "/proj/.env" eq_refl eq_refl).
Defined.

(* ================================================================== *)
(** ** The public directory stage                                      *)
(* ================================================================== *)

Lemma includesChar_false (s : string) (c : ascii) :
  Js.includesChar s c = false ->
  Url.allChars (fun d => negb (Ascii.eqb d c)) s = true.
Proof.
  induction s as [|d s IH]; simpl; [reflexivity|].
  intros Hs. apply orb_false_iff in Hs as [Hd Hs].
  now rewrite Hd, (IH Hs).
Qed.

Section PublicFacts.
Context `{Imports}.

(** X5. The test for a percent sign in [toFilePath] is a shortcut only:
    the result is the normalized form of the cleaned URL decoded, or of
    the cleaned URL as it is where it does not decode. *)
Theorem toFilePath_decodes (url : string) :
  toFilePath url
  = normalizePath (try_or (Js.decodeURI (cleanUrl url)) (cleanUrl url)).
Proof.
  unfold toFilePath.
  destruct (Js.includesChar (cleanUrl url) "%") eqn:Hp; [reflexivity|].
  now rewrite (decodeURI_plain _ (includesChar_false _ _ Hp)).
Qed.

(** X6. The public stage declines, with the response untouched, exactly
    for a request outside the known public files (where that set is
    given), an import request, an internal request or a request with the
    [url] marker.  It has no handler of its own: a fault of the
    collaborator leaves the stage as it was thrown, a policy denial
    included, and the stage never answers with the denial page. *)
Theorem public_stage_outcome
    (serve : Handler) (publicFiles : option (gset string))
    (req_url : string) (w : World) :
  (viteServePublicMiddleware serve publicFiles req_url w = (w, Normal Declined)
   <-> ((exists files, publicFiles = Some files /\ toFilePath req_url ∉ files)
        \/ isImportRequest req_url = true
        \/ isInternalRequest req_url = true
        \/ urlRE_test req_url = true))
  /\ (forall w' e,
        viteServePublicMiddleware serve publicFiles req_url w = (w', Throw e)
        <-> viteServePublicMiddleware serve publicFiles req_url w <> (w, Normal Declined)
            /\ serve req_url w = (w', Throw e))
  /\ snd (viteServePublicMiddleware serve publicFiles req_url w) <> Normal AccessDenied.
Proof.
  set (declines :=
         match publicFiles with
         | Some files => negb (bool_decide (toFilePath req_url ∈ files))
         | None => false
         end
         || isImportRequest req_url || isInternalRequest req_url || urlRE_test req_url).
  assert (Hdecl : declines = true <->
            ((exists files, publicFiles = Some files /\ toFilePath req_url ∉ files)
             \/ isImportRequest req_url = true
             \/ isInternalRequest req_url = true
             \/ urlRE_test req_url = true)).
  { unfold declines. rewrite !orb_true_iff.
    assert (Hset : match publicFiles with
                   | Some files => negb (bool_decide (toFilePath req_url ∈ files))
                   | None => false
                   end = true
                   <-> exists files, publicFiles = Some files
                                     /\ toFilePath req_url ∉ files).
    { destruct publicFiles as [files|].
      - rewrite negb_true_iff, bool_decide_eq_false. split.
        + intros Hn. now exists files.
        + intros (files' & Hf & Hn). now injection Hf as ->.
      - split; [discriminate | intros (files' & Hf & _); discriminate]. }
    rewrite Hset. tauto. }
  assert (Hrun : viteServePublicMiddleware serve publicFiles req_url w
                 = if declines then (w, Normal Declined)
                   else match serve req_url w with
                        | (w', Normal s) => (w', Normal (Delegated req_url s))
                        | (w', Throw e) => (w', Throw e)
                        end).
  { unfold viteServePublicMiddleware. fold declines.
    destruct declines; [reflexivity|]. unfold mbind.
    now destruct (serve req_url w) as [w' [s|e]]. }
  rewrite Hrun, <- Hdecl. split; [|split].
  - destruct declines; [tauto|].
    destruct (serve req_url w) as [w' [s|e]]; split; discriminate.
  - intros w' e. destruct declines.
    + split; [discriminate | intros [Hn _]; now elim Hn].
    + destruct (serve req_url w) as [w1 [s|e1]].
      * split; [discriminate | intros [_ Hs]; discriminate].
      * split.
        -- intros Hs. injection Hs as -> ->. split; [discriminate | reflexivity].
        -- intros [_ Hs]. injection Hs as -> ->. reflexivity.
  - destruct declines; [discriminate|].
    destruct (serve req_url w) as [w' [s|e]]; discriminate.
Qed.

(** X7. The public stage does not consult the access policy: two servers
    with the same public directory and the same configured headers serve
    a request alike, whatever their [server.fs] options, deny patterns
    and trusted paths are; the collaborator gets no predicate. *)
Theorem public_stage_ignores_policy
    (sirv : Sirv) (server server' : ViteDevServer)
    (publicFiles : option (gset string)) (req_url : string) (w : World) :
  publicDir (config server') = publicDir (config server) ->
  server_headers (config server') = server_headers (config server) ->
  shouldServe (sirvOptions (config server)
                 (fun _ => server_headers (config server)) true) = None
  /\ servePublicMiddleware sirv server' publicFiles req_url w
     = servePublicMiddleware sirv server publicFiles req_url w.
Proof.
  intros Hd Hh. split; [reflexivity|].
  unfold servePublicMiddleware, sirvOptions. cbn [negb]. now rewrite Hd, Hh.
Qed.

End PublicFacts.

Lemma public_stage_ignores_policy_witness :
  let open := mkConfig "/srv" "/proj/public" (mkFs false []) None (fun _ => true) ∅ [] in
  servePublicMiddleware (H := Example.host) (Example.sirv Example.disk)
    (mkServer open) None "/logo.svg" Example.fresh
  = servePublicMiddleware (H := Example.host) (Example.sirv Example.disk)
      (mkServer Example.project) None "/logo.svg" Example.fresh.
Proof.
  intros open.
  exact (proj2 (public_stage_ignores_policy (H := Example.host) (Example.sirv Example.disk)
                  (mkServer Example.project) (mkServer open) None "/logo.svg"
                  Example.fresh eq_refl eq_refl)).
Defined.

(* ================================================================== *)
(** ** The raw filesystem stage and the alias rules                    *)
(* ================================================================== *)

Lemma getSubstitution_plain (matched before after repl : string) :
  Js.includesChar repl "$" = false ->
  Js.getSubstitution matched before after repl = repl.
Proof.
  induction repl as [|c r IH]; [reflexivity|].
  intros Hr. cbn [Js.includesChar] in Hr. apply orb_false_iff in Hr as [Hc Hr].
  cbn [Js.getSubstitution]. now rewrite Hc, (IH Hr).
Qed.

Lemma splitAt_prefix (s pat : string) :
  Js.startsWith s pat = true ->
  Js.splitAt s pat = Some (EmptyString, Js.slice s (String.length pat)).
Proof. intros Hs. destruct s; cbn [Js.splitAt]; now rewrite Hs. Qed.

Section RewriteFacts.
Context `{Imports}.

(** X8. The raw-fs stage declines, with the response untouched and
    before the URL is parsed, exactly for the requests that do not start
    with the prefix. *)
Theorem rawfs_stage_declines_exactly
    (serveFromRoot : Handler) (server : ViteDevServer) (req_url : string) (w : World) :
  viteServeRawFsMiddleware serveFromRoot server req_url w = (w, Normal Declined)
  <-> Js.startsWith req_url FS_PREFIX = false.
Proof.
  unfold viteServeRawFsMiddleware.
  destruct (Js.startsWith req_url FS_PREFIX); split; try reflexivity; try discriminate.
  intros Hd. exfalso. unfold mbind, lift in Hd.
  destruct (rawFsUrl req_url) as [u|e]; [|discriminate].
  eapply serveGuarded_not_declined. rewrite Hd. reflexivity.
Qed.

Lemma applyAlias_none (aliases : list Alias) (pathname : string) :
  applyAlias aliases pathname = None
  <-> forall a, In a aliases -> aliasMatches a pathname = false.
Proof.
  induction aliases as [|a l IH]; cbn [applyAlias].
  - split; [intros _ a [] | reflexivity].
  - destruct (aliasMatches a pathname) eqn:Ha.
    + split; [discriminate|]. intros Hall.
      rewrite (Hall a (or_introl eq_refl)) in Ha. discriminate.
    + rewrite IH. split.
      * intros Hall b [<-|Hb]; auto.
      * intros Hall b Hb. apply Hall. now right.
Qed.

(** X9. The loop over the alias rules gives [undefined] exactly when no
    rule matches the pathname, and otherwise the replacement made by the
    first rule that matches. *)
Theorem applyAlias_characterized (aliases : list Alias) (pathname : string) :
  (applyAlias aliases pathname = None
   <-> forall a, In a aliases -> aliasMatches a pathname = false)
  /\ (forall rewritten,
        applyAlias aliases pathname = Some rewritten
        <-> exists pre a post,
              aliases = (pre ++ a :: post)%list
              /\ (forall b, In b pre -> aliasMatches b pathname = false)
              /\ aliasMatches a pathname = true
              /\ rewritten = aliasReplace a pathname).
Proof.
  induction aliases as [|a l [IHn IHs]]; cbn [applyAlias].
  - split.
    + split; [intros _ a [] | reflexivity].
    + intros r. split; [discriminate|].
      intros (pre & a & post & Hl & _). now destruct pre.
  - destruct (aliasMatches a pathname) eqn:Ha.
    + split.
      * split; [discriminate|]. intros Hall.
        rewrite (Hall a (or_introl eq_refl)) in Ha. discriminate.
      * intros r. split.
        -- intros Hr. injection Hr as <-. exists [], a, l.
           repeat split; auto. intros b [].
        -- intros (pre & a' & post & Hl & Hpre & Ha' & ->).
           destruct pre as [|b pre]; cbn in Hl; injection Hl as -> ->.
           ++ reflexivity.
           ++ rewrite (Hpre b (or_introl eq_refl)) in Ha. discriminate.
    + split.
      * rewrite IHn. split.
        -- intros Hall b [<-|Hb]; auto.
        -- intros Hall b Hb. apply Hall. now right.
      * intros r. rewrite IHs. split.
        -- intros (pre & a' & post & -> & Hpre & Ha' & ->).
           exists (a :: pre), a', post. repeat split; auto.
           intros b [<-|Hb]; auto.
        -- intros (pre & a' & post & Hl & Hpre & Ha' & ->).
           destruct pre as [|b pre]; cbn in Hl; injection Hl as -> ->.
           ++ rewrite Ha in Ha'. discriminate.
           ++ exists pre, a', post. repeat split; auto.
              intros b' Hb'. apply Hpre. now right.
Qed.

(** X10. A rule whose [find] is a string matches the pathnames that
    start with it and, its replacement holding no [$], puts the
    replacement in the place of that prefix; the rest of the pathname
    stays. *)
Theorem string_alias_replaces_prefix (a : Alias) (prefix pathname : string) :
  find a = FindString prefix ->
  Js.includesChar (replacement a) "$" = false ->
  aliasMatches a pathname = Js.startsWith pathname prefix
  /\ (aliasMatches a pathname = true ->
      aliasReplace a pathname
      = replacement a ++ Js.slice pathname (String.length prefix)).
Proof.
  intros Hf Hr. unfold aliasMatches, aliasReplace. rewrite Hf.
  split; [reflexivity|]. intros Hm.
  unfold Js.replace. rewrite (splitAt_prefix _ _ Hm).
  now rewrite (getSubstitution_plain _ _ _ _ Hr).
Qed.

(** X11. Where no rule matches, or where nothing is left of the
    rewritten pathname (it is empty, or it is the served root and its
    slash alone), the stage resolves the decoded pathname itself and
    leaves the request URL as it came. *)
Theorem no_rewrite_keeps_request
    (dir : string) (aliases : list Alias) (req_url : string)
    (url : Url.URL) (pathname : string) :
  (forall a, In a aliases -> aliasMatches a pathname = false)
  \/ applyAlias aliases pathname = Some EmptyString
  \/ (exists rewritten,
        applyAlias aliases pathname = Some rewritten
        /\ Js.startsWith rewritten (withTrailingSlash dir) = true
        /\ Js.slice rewritten (String.length dir) = EmptyString) ->
  let r := resolveStatic dir aliases req_url url pathname in
  resolvedPathname r = pathname
  /\ fileUrl r = rootJoin dir pathname
  /\ newUrl r = req_url.
Proof.
  intros Hcase r. subst r. unfold resolveStatic.
  destruct Hcase as [Hnone | [Hempty | (rw & Hrw & Hstart & Hrest)]].
  - apply applyAlias_none in Hnone. rewrite Hnone.
    cbn [defined_truthy or_else resolvedPathname fileUrl newUrl].
    split; [reflexivity | split; [apply fileUrl_rootJoin | reflexivity]].
  - rewrite Hempty.
    cbn [defined_truthy or_else Js.truthy resolvedPathname fileUrl newUrl].
    split; [reflexivity | split; [apply fileUrl_rootJoin | reflexivity]].
  - rewrite Hrw. cbn [defined_truthy].
    destruct (Js.truthy rw) eqn:Ht.
    + rewrite Hstart, Hrest.
      cbn [defined_truthy or_else Js.truthy resolvedPathname fileUrl newUrl].
      split; [reflexivity | split; [apply fileUrl_rootJoin | reflexivity]].
    + cbn [or_else defined_truthy]. rewrite Ht.
      cbn [resolvedPathname fileUrl newUrl].
      split; [reflexivity | split; [apply fileUrl_rootJoin | reflexivity]].
Qed.

End RewriteFacts.

Lemma string_alias_replaces_prefix_witness :
  let a := mkAlias (FindString "/src") "/proj/lib" in
  aliasMatches a "/src/app.ts" = true
  /\ aliasReplace a "/src/app.ts" = "/proj/lib/app.ts".
Proof.
  intros a.
  destruct (string_alias_replaces_prefix a "/src" "/src/app.ts"
              eq_refl eq_refl) as [Hm Hr].
  split; [exact Hm | exact (Hr eq_refl)].
Defined.

Lemma no_rewrite_keeps_request_witness :
  let url := Url.mkURL ["src"; "app.ts"] (Some "v=1") None in
  let r := resolveStatic (H := Example.host) "/proj"
             [mkAlias (FindString "/assets") "/static"] "/src/app.ts?v=1" url
             "/src/app.ts" in
  resolvedPathname r = "/src/app.ts"
  /\ fileUrl r = rootJoin (H := Example.host) "/proj" "/src/app.ts"
  /\ newUrl r = "/src/app.ts?v=1".
Proof.
  intros url r.
  apply (no_rewrite_keeps_request (H := Example.host) "/proj"
           [mkAlias (FindString "/assets") "/static"] "/src/app.ts?v=1" url "/src/app.ts").
  left. intros a [<-|[]]. reflexivity.
Defined.

(* ================================================================== *)
(** ** The request URL after a rewrite                                 *)
(* ================================================================== *)

Lemma forallb_rev {A} (p : A -> bool) (l : list A) :
  forallb p (rev l) = forallb p l.
Proof.
  induction l as [|x l IH]; [reflexivity|].
  cbn [rev forallb]. rewrite forallb_app, IH. cbn [forallb].
  rewrite andb_true_r. apply andb_comm.
Qed.

Lemma forallb_tl {A} (p : A -> bool) (l : list A) :
  forallb p l = true -> forallb p (tl l) = true.
Proof.
  destruct l as [|x l]; [auto|]. cbn [forallb tl].
  intros Hl. now apply andb_true_iff in Hl as [_ Hl].
Qed.

(** The path state leaves no dot segment in the path. *)
Lemma pathState_resolves_dots (segs acc : list string) :
  segs <> [] ->
  forallb plainSeg acc = true ->
  Url.pathState segs acc <> [] /\ forallb plainSeg (Url.pathState segs acc) = true.
Proof.
  revert acc. induction segs as [|seg segs IH]; intros acc Hne Hacc; [contradiction|].
  assert (Hplain : Url.isDoubleDot seg = false -> Url.isSingleDot seg = false ->
                   plainSeg seg = true).
  { intros H2 H1. unfold plainSeg. now rewrite H1, H2. }
  assert (Hrev : forall x l, forallb plainSeg l = true -> plainSeg x = true ->
                   rev (x :: l) <> [] /\ forallb plainSeg (rev (x :: l)) = true).
  { intros x l Hl Hx. split.
    - cbn [rev]. intros Hnil. apply app_eq_nil in Hnil as [_ Hnil]. discriminate.
    - rewrite forallb_rev. cbn [forallb]. now rewrite Hx, Hl. }
  destruct segs as [|s2 rest].
  - cbn [Url.pathState].
    destruct (Url.isDoubleDot seg) eqn:H2.
    { apply Hrev; [now apply forallb_tl | reflexivity]. }
    destruct (Url.isSingleDot seg) eqn:H1.
    { apply Hrev; [assumption | reflexivity]. }
    apply Hrev; [assumption | now apply Hplain].
  - change (Url.pathState (seg :: s2 :: rest) acc)
      with (if Url.isDoubleDot seg then Url.pathState (s2 :: rest) (tl acc)
            else if Url.isSingleDot seg then Url.pathState (s2 :: rest) acc
            else Url.pathState (s2 :: rest) (seg :: acc)).
    destruct (Url.isDoubleDot seg) eqn:H2.
    { apply IH; [discriminate | now apply forallb_tl]. }
    destruct (Url.isSingleDot seg) eqn:H1.
    { apply IH; [discriminate | assumption]. }
    apply IH; [discriminate|]. cbn [forallb]. now rewrite (Hplain eq_refl eq_refl), Hacc.
Qed.

Lemma parsePath_resolves_dots (v : string) :
  Url.parsePath v <> [] /\ forallb plainSeg (Url.parsePath v) = true.
Proof.
  unfold Url.parsePath. apply pathState_resolves_dots; [|reflexivity].
  pose proof (splitSegs_nonempty v) as Hne.
  destruct (Url.splitSegs v); [contradiction | discriminate].
Qed.

Lemma serializePath_starts (segs : list string) :
  segs <> [] -> Js.startsWith (Url.serializePath segs) "/" = true.
Proof. destruct segs as [|seg segs]; [contradiction | reflexivity]. Qed.

Lemma startsWith_app (s p b : string) :
  Js.startsWith s p = true -> Js.startsWith (s ++ b) p = true.
Proof.
  revert s. induction p as [|a p IH]; intros s; [reflexivity|].
  destruct s as [|c s]; cbn [Js.startsWith]; [discriminate|].
  intros Hs. apply andb_true_iff in Hs as [Hc Hs].
  change (String c s ++ b) with (String c (s ++ b)). cbn [Js.startsWith].
  now rewrite Hc, (IH s Hs).
Qed.

Lemma splitSegs_noSeparator (s : string) :
  forallb noSeparator (Url.splitSegs s) = true.
Proof.
  induction s as [|c s IH]; [reflexivity|].
  cbn [Url.splitSegs]. destruct (Url.isSlash c) eqn:Hc.
  - cbn [forallb]. now rewrite IH.
  - destruct (Url.splitSegs s) as [|h t]; cbn [forallb] in *.
    + unfold noSeparator, Js.str. cbn [Url.allChars]. now rewrite Hc.
    + apply andb_true_iff in IH as [Hh Ht]. rewrite Ht, andb_true_r.
      unfold noSeparator in *. cbn [Url.allChars]. now rewrite Hc, Hh.
Qed.

Lemma percentEncode_noSeparator (S : ascii -> bool) (seg : string) :
  noSeparator seg = true -> noSeparator (Url.percentEncode S seg) = true.
Proof.
  unfold noSeparator.
  apply allChars_percentEncode; [reflexivity | | now intros c Hc _].
  intros c. destruct (hexDigit_facts c) as (H1 & H2 & _). cbv zeta in H1, H2.
  now rewrite H1, H2.
Qed.

(** The path state makes no segment of its own but the empty one. *)
Lemma pathState_forallb (Q : string -> bool) (segs acc : list string) :
  Q EmptyString = true ->
  forallb Q segs = true ->
  forallb Q acc = true ->
  forallb Q (Url.pathState segs acc) = true.
Proof.
  intros HQ. revert acc. induction segs as [|seg segs IH]; intros acc Hsegs Hacc.
  - cbn [Url.pathState]. now rewrite forallb_rev.
  - cbn [forallb] in Hsegs. apply andb_true_iff in Hsegs as [Hseg Hsegs].
    assert (Hrev : forall x l, Q x = true -> forallb Q l = true ->
                     forallb Q (rev (x :: l)) = true).
    { intros x l Hx Hl. rewrite forallb_rev. cbn [forallb]. now rewrite Hx, Hl. }
    destruct segs as [|s2 rest].
    + cbn [Url.pathState].
      destruct (Url.isDoubleDot seg); [apply Hrev; [exact HQ | now apply forallb_tl]|].
      destruct (Url.isSingleDot seg); apply Hrev; assumption.
    + change (Url.pathState (seg :: s2 :: rest) acc)
        with (if Url.isDoubleDot seg then Url.pathState (s2 :: rest) (tl acc)
              else if Url.isSingleDot seg then Url.pathState (s2 :: rest) acc
              else Url.pathState (s2 :: rest) (seg :: acc)).
      destruct (Url.isDoubleDot seg); [apply IH; [exact Hsegs | now apply forallb_tl]|].
      destruct (Url.isSingleDot seg); apply IH; try assumption.
      cbn [forallb]. now rewrite Hseg, Hacc.
Qed.

Lemma parsePath_noSeparator (v : string) :
  forallb noSeparator (Url.parsePath v) = true.
Proof.
  unfold Url.parsePath. apply pathState_forallb; [reflexivity | | reflexivity].
  pose proof (splitSegs_noSeparator v) as Hv.
  induction (Url.splitSegs v) as [|seg segs IH]; [reflexivity|].
  cbn [forallb map] in *. apply andb_true_iff in Hv as [Hseg Hsegs].
  now rewrite (percentEncode_noSeparator _ seg Hseg), (IH Hsegs).
Qed.

Section RewrittenUrl.
Context `{Imports}.

(** X12. For a request behind the prefix in the raw-fs stage, and for a
    request in origin form that an alias rewrites in the root stage, the
    URL handed to the collaborator is a path, followed by the query and
    the fragment as [url.href] has them: one or more segments, each after
    a [/]; no segment holds a [/] or a backslash, and none is a [.] or
    [..] segment, plain or percent-encoded. *)
Theorem rewritten_url_is_normalized
    (dir : string) (aliases : list Alias) (req_url : string) :
  (Js.startsWith req_url FS_PREFIX = true ->
   forall u,
     rawFsUrl req_url = Normal u ->
     exists url segs,
       newURL req_url = Normal url
       /\ u = Url.serializePath segs ++ searchAndHash url
       /\ segs <> []
       /\ forallb noSeparator segs = true
       /\ forallb plainSeg segs = true
       /\ Js.startsWith u "/" = true)
  /\ (Url.originForm req_url = true ->
      forall url pathname,
        newURL req_url = Normal url ->
        let r := resolveStatic dir aliases req_url url pathname in
        defined_truthy (redirectedPathname r) = true ->
        exists segs,
          newUrl r = Url.serializePath segs ++ searchAndHash url
          /\ segs <> []
          /\ forallb noSeparator segs = true
          /\ forallb plainSeg segs = true
          /\ Js.startsWith (newUrl r) "/" = true).
Proof.
  split.
  - intros _ u Hu. unfold rawFsUrl in Hu.
    destruct (newURL req_url) as [url|e]; [|discriminate]. cbn [bind] in Hu.
    destruct (Js.decodeURI (Url.pathname url)) as [pathname|e]; [|discriminate].
    cbn [bind] in Hu. injection Hu as <-.
    eexists url, _. split; [reflexivity|].
    split; [unfold Url.pathname, searchAndHash; reflexivity|].
    unfold Url.setPathname. cbn [Url.path].
    match goal with
    | |- context [Url.parsePath ?v] =>
        destruct (parsePath_resolves_dots v) as [Hne Hplain];
        pose proof (parsePath_noSeparator v) as Hsep
    end.
    split; [exact Hne|]. split; [exact Hsep|]. split; [exact Hplain|].
    rewrite ?href_after_origin. unfold Url.pathname. cbn [Url.path].
    now apply startsWith_app, serializePath_starts.
  - intros _ url pathname _ r Hr. subst r. unfold resolveStatic in *.
    cbn [redirectedPathname newUrl] in *.
    match type of Hr with
    | defined_truthy ?v = true => destruct v as [rw|]; [|discriminate]
    end.
    rewrite Hr.
    eexists. split; [rewrite ?href_after_origin; unfold Url.pathname; reflexivity|].
    unfold Url.setPathname. cbn [Url.path].
    match goal with
    | |- context [Url.parsePath ?v] =>
        destruct (parsePath_resolves_dots v) as [Hne Hplain];
        pose proof (parsePath_noSeparator v) as Hsep
    end.
    split; [exact Hne|]. split; [exact Hsep|]. split; [exact Hplain|].
    rewrite ?href_after_origin. unfold Url.pathname. cbn [Url.path].
    now apply startsWith_app, serializePath_starts.
Qed.

End RewrittenUrl.

Lemma rewritten_url_is_normalized_witness :
  rawFsUrl (H := Example.host) "/@fs/srv/../etc/./passwd?raw" = Normal "/etc/passwd?raw"
  /\ (exists url segs,
        newURL (Imports := Example.host) "/@fs/srv/../etc/./passwd?raw" = Normal url
        /\ "/etc/passwd?raw" = Url.serializePath segs ++ searchAndHash url
        /\ segs <> []
        /\ forallb noSeparator segs = true
        /\ forallb plainSeg segs = true
        /\ Js.startsWith "/etc/passwd?raw" "/" = true)
  /\ (let url := Url.mkURL ["src"; "app.ts"] (Some "v=1") None in
      let r := resolveStatic (H := Example.host) "/proj"
                 [mkAlias (FindString "/src") "/lib/../vendor"] "/src/app.ts?v=1" url
                 "/src/app.ts" in
      newUrl r = "/vendor/app.ts?v=1"
      /\ exists segs,
           newUrl r = Url.serializePath segs ++ searchAndHash url
           /\ segs <> []
           /\ forallb noSeparator segs = true
           /\ forallb plainSeg segs = true
           /\ Js.startsWith (newUrl r) "/" = true).
Proof.
  split; [reflexivity|]. split.
  - exact (proj1 (rewritten_url_is_normalized (H := Example.host) "/proj" []
                    "/@fs/srv/../etc/./passwd?raw") eq_refl "/etc/passwd?raw" eq_refl).
  - intros url r. split; [reflexivity|].
    exact (proj2 (rewritten_url_is_normalized (H := Example.host) "/proj"
                    [mkAlias (FindString "/src") "/lib/../vendor"] "/src/app.ts?v=1")
             eq_refl url "/src/app.ts" eq_refl eq_refl).
Defined.

Section RawFsQuery.
Context `{Imports}.

Lemma rawFsUrl_of_pathname (req_url : string) (url : Url.URL) (t : string) :
  newURL req_url = Normal url ->
  Url.pathname url = FS_PREFIX ++ t ->
  Url.allChars stableChar t = true ->
  let v := if isWindows then stripDrive t else t in
  Url.allChars stableChar v = true ->
  forallb plainSeg (Url.splitSegs (dropLead v)) = true ->
  rawFsUrl req_url = Normal (String "/" (dropLead v) ++ searchAndHash url).
Proof.
  intros Hurl Hpath Ht v Hv Hpv.
  unfold rawFsUrl. rewrite Hurl. cbn [bind]. rewrite Hpath.
  rewrite decodeURI_plain by (apply (stable_not "%" _ eq_refl); exact Ht).
  cbn [bind].
  change (Js.slice (FS_PREFIX ++ t) (String.length FS_PREFIX)) with t.
  fold v. rewrite (encodeURI_stable v Hv), href_after_origin.
  unfold Url.setPathname. rewrite (removeChars_stable v Hv).
  fold (dropLead v).
  destruct (parsePath_stable (dropLead v) (allChars_dropLead _ _ Hv) Hpv) as [_ Hser].
  unfold Url.pathname. cbn [Url.path]. rewrite Hser.
  unfold searchAndHash. cbn [Url.query Url.fragment]. reflexivity.
Qed.

(** X13. The raw-fs stage keeps the query and the fragment that the
    parsed URL has: for a request behind the prefix whose pathname is
    the prefix followed by an absolute path [p] of stable characters
    without dot segments (or, off Windows, [/@fs] joined to such a [p]
    that does not begin with two slashes), the collaborator gets [p]
    followed by the query and the fragment as [url.href] has them, that
    is, as the URL parser has percent-encoded them. *)
Theorem escape_hatch_keeps_query (req_url : string) (url : Url.URL) (p : string) :
  Js.startsWith req_url FS_PREFIX = true ->
  newURL req_url = Normal url ->
  stablePath p = true ->
  Url.pathname url = FS_PREFIX ++ p
  \/ (isWindows = false /\ Js.startsWith p "//" = false
      /\ Url.pathname url = "/@fs" ++ p) ->
  rawFsUrl req_url = Normal (p ++ searchAndHash url).
Proof.
  intros _ Hurl Hp Hcase.
  destruct p as [|c q]; [discriminate|].
  destruct (Ascii.eqb_spec c "/") as [->|Hc].
  2:{ exfalso. revert Hp. destruct c as [[] [] [] [] [] [] [] []];
        try discriminate; now elim Hc. }
  unfold stablePath in Hp. apply andb_true_iff in Hp as [Hq Hpq].
  destruct Hcase as [Hpath | (Hwin & Hstart & Hpath)].
  - pose proof (rawFsUrl_of_pathname req_url url (String "/" q) Hurl Hpath) as HA.
    cbv zeta in HA. rewrite stripDrive_absolute in HA.
    assert (Hif : (if isWindows then String "/" q else String "/" q) = String "/" q)
      by now destruct isWindows.
    rewrite Hif in HA. apply HA; [exact Hq | exact Hq | exact Hpq].
  - assert (Hlead : dropLead q = q).
    { destruct q as [|c q]; [reflexivity|].
      simpl in Hq. apply andb_true_iff in Hq as [Hc _].
      destruct (stableChar_facts c Hc) as (_ & _ & Hslash & _).
      simpl. rewrite Hslash.
      destruct (Ascii.eqb_spec c "/") as [->|_]; [discriminate Hstart | reflexivity]. }
    pose proof (rawFsUrl_of_pathname req_url url q Hurl Hpath Hq) as HB.
    cbv zeta in HB. rewrite Hwin, Hlead in HB.
    apply HB; [exact Hq | exact Hpq].
Qed.

End RawFsQuery.

Lemma escape_hatch_keeps_query_witness :
  rawFsUrl (H := Example.host) "/@fs/home/user/linked-pkg/index.js?v=1#top"
  = Normal "/home/user/linked-pkg/index.js?v=1#top".
Proof.
  exact (escape_hatch_keeps_query (H := Example.host)
           "/@fs/home/user/linked-pkg/index.js?v=1#top"
           (Url.mkURL ["@fs"; "home"; "user"; "linked-pkg"; "index.js"]
              (Some "v=1") (Some "top"))
           "/home/user/linked-pkg/index.js"
           eq_refl eq_refl eq_refl (or_intror (conj eq_refl (conj eq_refl eq_refl)))).
Defined.

(** The query comes out as the URL parser encodes it: a quote of the
    request is percent-encoded. *)
Example escape_hatch_query_is_encoded :
  rawFsUrl (H := Example.host) "/@fs/home/x.js?q='a'" = Normal "/home/x.js?q=%27a%27".
Proof. reflexivity. Qed.

(* ================================================================== *)
(** ** The page and the fault of a denial                              *)
(* ================================================================== *)

Lemma onlyBreaks_app (a b : string) :
  onlyBreaks a = true -> onlyBreaks b = true -> onlyBreaks (a ++ b) = true.
Proof.
  intros Ha Hb. induction a as [|c a IH]; [exact Hb|].
  cbn [onlyBreaks] in Ha. apply andb_true_iff in Ha as [Hc Ha].
  change (String c a ++ b) with (String c (a ++ b)). cbn [onlyBreaks].
  rewrite (IH Ha), andb_true_r.
  destruct (Ascii.eqb c "<"); [now apply startsWith_app | reflexivity].
Qed.

Lemma onlyBreaks_char (c : ascii) : onlyBreaks (inHtml (Js.str c)) = true.
Proof. destruct c as [[] [] [] [] [] [] [] []]; reflexivity. Qed.

Lemma quietChar_inHtml (c : ascii) :
  Url.allChars
    (fun d => negb (Ascii.eqb d Js.newline || Ascii.eqb d Js.dquote || Ascii.eqb d "'"))
    (inHtml (Js.str c)) = true.
Proof. destruct c as [[] [] [] [] [] [] [] []]; reflexivity. Qed.

(** X14. In the denial page the message stands between the fixed head
    and tail with every [<] of it opening a [<br/>] and with no newline,
    quote or double quote left: the text of a request can close no
    attribute and open no tag. *)
Theorem denial_page_has_only_line_breaks (msg : string) :
  renderRestrictedErrorHTML msg = html_head ++ inHtml msg ++ html_tail
  /\ onlyBreaks (inHtml msg) = true
  /\ Url.allChars
       (fun d => negb (Ascii.eqb d Js.newline || Ascii.eqb d Js.dquote || Ascii.eqb d "'"))
       (inHtml msg) = true.
Proof.
  split; [reflexivity|].
  induction msg as [|c msg [IH1 IH2]]; [split; reflexivity|].
  rewrite inHtml_cons. split.
  - apply onlyBreaks_app; [apply onlyBreaks_char | exact IH1].
  - rewrite allChars_app, IH2, andb_true_r. apply quietChar_inHtml.
Qed.

Section DenialFacts.
Context `{Imports}.

(** X15. The predicate throws for the files the policy rejects and the
    disk has, and for no other: what it throws is the denial fault, with
    the code [ERR_DENIED_FILE] and the path it was asked about, so that
    a 403 answer never speaks of a path that is allowed or of a file that
    cannot be read. *)
Theorem shouldServe_throws_for_readable_only
    (cfg : ResolvedConfig) (getHeaders : unit -> option (list (string * string)))
    (filePath : string) :
  exists f,
    shouldServe (sirvOptions cfg getHeaders false) = Some f
    /\ forall e,
         f filePath = Throw e
         <-> isFileLoadingAllowed cfg (slash filePath) = false
             /\ isFileReadable filePath = true
             /\ e = mkError "Error" "denied access" (Some ERR_DENIED_FILE) (Some filePath).
Proof.
  eexists. split; [reflexivity|]. intros e. cbn beta.
  unfold checkLoadingAccess, deniedError.
  destruct (isFileLoadingAllowed cfg (slash filePath));
    destruct (isFileReadable filePath); split;
    try discriminate; try (intros (Ha & Hr & _); discriminate).
  - intros He. injection He as <-. repeat split.
  - intros (_ & _ & ->). reflexivity.
Qed.

(** X16. The root and the raw-fs stage add to the response and to the
    log only when they answer a denial: in every other case the state
    they leave is the one the collaborator left. *)
Theorem stage_writes_only_on_denial
    (serve : Handler) (server : ViteDevServer) (u : string) (w : World) :
  let w' := fst (serve u w) in
  let out := serveGuarded serve server u w in
  (snd out <> Normal AccessDenied -> fst out = w')
  /\ (snd out = Normal AccessDenied ->
      exists e,
        snd (serve u w) = Throw e
        /\ err_code e = Some ERR_DENIED_FILE
        /\ fst out = fst (respondWithAccessDenied (pathOf e) server w')
        /\ logged (fst out)
           = (logged w' ++ [LogError (urlMessage (pathOf e));
                            LogWarnOnce (hintMessage server ++ nl)])%list
        /\ headersSet (res (fst out)) = headersSet (res w')).
Proof.
  cbv zeta. destruct (serve u w) as [w' [s|e]] eqn:Hs.
  - rewrite (serveGuarded_normal _ _ _ _ _ _ Hs). cbn [fst snd].
    split; [reflexivity | discriminate].
  - rewrite (serveGuarded_throw _ _ _ _ _ _ Hs). cbn [fst snd].
    destruct (isDeniedError e) eqn:Hd; cbn [fst snd].
    + split; [intros Hn; now elim Hn|]. intros _.
      exists e. apply isDeniedError_iff in Hd.
      repeat split; try assumption. cbn. now rewrite <- app_assoc.
    + split; [reflexivity | discriminate].
Qed.

End DenialFacts.

Lemma stage_writes_only_on_denial_witness :
  let server := mkServer Example.project in
  fst (serveGuarded Example.serveRoot server "/src/app.ts" Example.fresh)
  = fst (Example.serveRoot "/src/app.ts" Example.fresh)
  /\ exists e,
       snd (Example.serveRoot "/.env" Example.fresh) = Throw e
       /\ err_code e = Some ERR_DENIED_FILE
       /\ fst (serveGuarded Example.serveRoot server "/.env" Example.fresh)
          = fst (respondWithAccessDenied (pathOf e) server
                   (fst (Example.serveRoot "/.env" Example.fresh)))
       /\ logged (fst (serveGuarded Example.serveRoot server "/.env" Example.fresh))
          = (logged (fst (Example.serveRoot "/.env" Example.fresh))
             ++ [LogError (urlMessage (pathOf e));
                 LogWarnOnce (hintMessage server ++ nl)])%list
       /\ headersSet (res (fst (serveGuarded Example.serveRoot server "/.env"
                                  Example.fresh)))
          = headersSet (res (fst (Example.serveRoot "/.env" Example.fresh))).
Proof.
  intros server. split.
  - apply (proj1 (stage_writes_only_on_denial Example.serveRoot server "/src/app.ts"
                    Example.fresh)).
    discriminate.
  - exact (proj2 (stage_writes_only_on_denial Example.serveRoot server "/.env"
                    Example.fresh) eq_refl).
Defined.
